(** * Dashboard.py: the filter-and-aggregate pipeline of the dashboard

    The development embeds the data pipeline of [Dashboard.py]: the
    synthetic data generator [load_and_clean_data], the two sidebar filters
    and the summary metrics of [main], and the three aggregations computed by
    [visualisasi_demografi], [visualisasi_korelasi] and
    [visualisasi_platform].  Page layout, CSS and chart configuration are
    outside the embedding.

    Numeric model.  A float64 of the program is a value of [float A]: either
    a number or [NaN].  Numbers are exact rationals ([Q]); only the
    correlation coefficient, which takes a square root, is a real ([R]).
    The binary64 rounding error of the individual operations is not part of
    the model, and infinities do not occur in the pipeline.  The row labels
    (the pandas index) are not modelled: a DataFrame is the list of its rows
    in order. *)

From Stdlib Require Import List String Ascii Bool Arith ZArith QArith Qround Qabs
  Lia Reals Qreals Lra Lqa Sorted Permutation OrderedTypeEx.
Import ListNotations.

Local Open Scope Q_scope.

(** ** numpy and pandas primitives *)

Inductive float (A : Type) : Type :=
| Num (a : A)
| NaN.
Arguments Num {A} a.
Arguments NaN {A}.

Definition is_nan {A} (x : float A) : bool :=
  match x with NaN => true | Num _ => false end.

Module np.

(** [np.rint]: nearest integer, halves to the even neighbour. *)
Definition rint (q : Q) : Z :=
  let f := Qfloor q in
  match Qcompare (q - inject_Z f) (1 # 2) with
  | Lt => f
  | Gt => (f + 1)%Z
  | Eq => if Z.even f then f else (f + 1)%Z
  end.

(** [np.round(x, decimals)] scales by [10^decimals], applies [rint] and
    scales back.  Here the product is exact; numpy rounds the binary64
    product, so a value whose decimal expansion sits at a tie can come out
    as the other neighbour.  The result is in both cases a multiple of
    [10^-decimals] less than one such unit away from [x]. *)
Definition round (decimals : nat) (q : Q) : Q :=
  let s := inject_Z (10 ^ Z.of_nat decimals) in
  inject_Z (rint (q * s)) / s.

(** [np.clip(x, lo, hi)] is [minimum(maximum(x, lo), hi)]. *)
Definition clip (lo hi x : Q) : Q :=
  let m := if Qle_bool lo x then x else lo in
  if Qle_bool m hi then m else hi.

(** [astype(int)] on a float drops the fractional part (towards zero). *)
Definition astype_int (q : Q) : Z := Z.quot (Qnum q) (Zpos (Qden q)).

End np.

Module pd.

Definition sum (xs : list Q) : Q := fold_right Qplus 0 xs.

Definition count {A} (xs : list A) : Z := Z.of_nat (List.length xs).

(** [Series.mean()]: the sum over the count, and NaN when there is no
    value to average (pandas' [nanmean] returns NaN for a zero count).  The
    same exact mean stands for the mean of a group; in binary64 the two
    summation orders can differ in the last bit. *)
Definition mean (xs : list Q) : float Q :=
  match xs with
  | [] => NaN
  | _ :: _ => Num (sum xs / inject_Z (count xs))
  end.

(** [Series.round(decimals)] on a float column; NaN stays NaN. *)
Definition round (decimals : nat) (x : float Q) : float Q :=
  match x with
  | Num q => Num (np.round decimals q)
  | NaN => NaN
  end.

(** [DataFrame.round(decimals)] leaves an integer column as it is. *)
Definition round_int (decimals : nat) (z : Z) : Z := z.

Section GroupBy.
Context {K : Type} (cmp : K -> K -> comparison).

Definition key_eqb (a b : K) : bool :=
  match cmp a b with Eq => true | _ => false end.

Definition key_lt (a b : K) : Prop := cmp a b = Lt.

Fixpoint insert_key (k : K) (ks : list K) : list K :=
  match ks with
  | [] => [k]
  | k' :: ks' =>
      match cmp k k' with
      | Lt => k :: ks
      | Eq => ks
      | Gt => k' :: insert_key k ks'
      end
  end.

(** The distinct group keys, in sorted order ([sort=True], the default
    of [groupby]).  Python orders strings by code point, which on their
    UTF-8 bytes is the lexicographic order of [String.compare]. *)
Definition group_keys (ks : list K) : list K := fold_right insert_key [] ks.

(** [df.groupby(key)]: one group per distinct observed key, keys sorted,
    each group holding its rows in their original order. *)
Definition groupby {A} (key : A -> K) (df : list A) : list (K * list A) :=
  map (fun k => (k, filter (fun r => key_eqb (key r) k) df))
      (group_keys (map key df)).
End GroupBy.

(** Lexicographic order on the key tuples of a two-column groupby. *)
Definition pair_compare (a b : string * string) : comparison :=
  match String.compare (fst a) (fst b) with
  | Eq => String.compare (snd a) (snd b)
  | c => c
  end.

Section SortValues.
Context {A : Type} (by_ : A -> float Q).

Definition key_ltb (a b : A) : bool :=
  match by_ a, by_ b with
  | Num x, Num y => negb (Qle_bool y x)
  | _, _ => false
  end.

Fixpoint insert_desc (x : A) (l : list A) : list A :=
  match l with
  | [] => [x]
  | y :: l' => if key_ltb x y then y :: insert_desc x l' else x :: l
  end.

(** [sort_values(by, ascending=False)]: rows with a NaN key go last
    ([na_position='last']); the others are put in descending key order.
    The executable model breaks ties by the original order. *)
Definition sort_values_desc (l : list A) : list A :=
  fold_right insert_desc [] (filter (fun a => negb (is_nan (by_ a))) l)
  ++ filter (fun a => is_nan (by_ a)) l.

Definition key_ge (a b : A) : Prop :=
  match by_ a, by_ b with
  | Num x, Num y => y <= x
  | _, NaN => True
  | NaN, Num _ => False
  end.

(** pandas sorts with [kind='quicksort'], which is not stable: what the
    library guarantees is a rearrangement of the rows in descending key
    order, whatever the order among equal keys. *)
Definition sort_values_desc_spec (l out : list A) : Prop :=
  Permutation l out /\ StronglySorted key_ge out.
End SortValues.

(** Pearson correlation of two columns as [DataFrame.corr()] computes it
    ([nancorr] with [min_periods = 1]): NaN below the minimum number of
    observations and NaN when the divisor [sqrt(ssqdm_x * ssqdm_y)] is 0. *)
Definition ssqdm (xs : list Q) (meanx : Q) : Q :=
  sum (map (fun x => (x - meanx) * (x - meanx)) xs).

Definition covxy (xys : list (Q * Q)) (meanx meany : Q) : Q :=
  sum (map (fun xy => (fst xy - meanx) * (snd xy - meany)) xys).

Definition minp : nat := 1.

Definition nancorr (xys : list (Q * Q)) : float R :=
  let nobs := List.length xys in
  if (nobs <? minp)%nat then NaN
  else
    let n := inject_Z (Z.of_nat nobs) in
    let meanx := sum (map fst xys) / n in
    let meany := sum (map snd xys) / n in
    let ssx := ssqdm (map fst xys) meanx in
    let ssy := ssqdm (map snd xys) meany in
    if Qeq_bool (ssx * ssy) 0 then NaN
    else Num (Q2R (covxy xys meanx meany) / sqrt (Q2R (ssx * ssy)))%R.

(** Sample variance ([ddof = 1]) of a column with at least two values. *)
Definition var (xs : list Q) : Q :=
  let n := inject_Z (Z.of_nat (List.length xs)) in
  ssqdm xs (sum xs / n) / (n - 1).

End pd.

(** ** The table *)

(** One respondent; the fields are the columns of the DataFrame. *)
Record row : Type := {
  Jenis_Kelamin : string;
  Tingkat_Pendidikan : string;
  Durasi_Penggunaan_Harian : Q;
  Platform_Terbanyak_Digunakan : string;
  Durasi_Tidur : Q;
  Skor_Kesehatan_Mental : Z
}.

Definition DataFrame : Type := list row.

(** ** [load_and_clean_data] *)

(** The random draws that make one row: the three [np.random.choice] picks,
    the [np.random.uniform(1, 12)] draw and the two [np.random.normal]
    draws.  The generator is a function of its source of randomness; none
    of its operations raises, so the [except] branch that returns [None] is
    never taken and has no counterpart here. *)
Record draw : Type := {
  choice_gender : string;
  choice_pendidikan : string;
  uniform_usage : Q;
  choice_platform : string;
  base_sleep : Q;
  base_mental_health : Q
}.

Definition n_samples : nat := 300.

Definition gender_choices : list string :=
  ["Laki-laki"; "Perempuan"]%string.
Definition pendidikan_choices : list string :=
  ["Pelajar SMA"; "Mahasiswa S1"; "Mahasiswa Pascasarjana"]%string.
Definition platform_choices : list string :=
  ["Instagram"; "TikTok"; "X (Twitter)"; "YouTube"; "Facebook"]%string.

Definition make_row (d : draw) : row :=
  let usage := np.round 1 (uniform_usage d) in
  {| Jenis_Kelamin := choice_gender d;
     Tingkat_Pendidikan := choice_pendidikan d;
     Durasi_Penggunaan_Harian := usage;
     Platform_Terbanyak_Digunakan := choice_platform d;
     Durasi_Tidur :=
       np.round 1 (np.clip 3 10 (base_sleep d - usage * (2 # 10)));
     Skor_Kesehatan_Mental :=
       np.astype_int (np.clip 10 100 (base_mental_health d - usage * (25 # 10)))
  |}.

Definition load_and_clean_data (rng : nat -> draw) : DataFrame :=
  map (fun i => make_row (rng i)) (seq 0 n_samples).

(** What numpy's generators can return: a choice is one of the listed
    options and the uniform draw lies in the half-open interval [1, 12). *)
Definition draw_ok (d : draw) : Prop :=
  In (choice_gender d) gender_choices /\
  In (choice_pendidikan d) pendidikan_choices /\
  (1 <= uniform_usage d /\ uniform_usage d < 12) /\
  In (choice_platform d) platform_choices.

Definition generated (df : DataFrame) : Prop :=
  exists rng, (forall i, draw_ok (rng i)) /\ df = load_and_clean_data rng.

(** ** [main]: the sidebar filters and the summary metrics *)

Definition Semua : string := "Semua"%string.

Definition filtered_df (df : DataFrame) (selected_pendidikan selected_gender : string)
  : DataFrame :=
  let filtered_df := df in
  let filtered_df :=
    if negb (String.eqb selected_pendidikan Semua)
    then filter (fun r => String.eqb (Tingkat_Pendidikan r) selected_pendidikan) filtered_df
    else filtered_df in
  let filtered_df :=
    if negb (String.eqb selected_gender Semua)
    then filter (fun r => String.eqb (Jenis_Kelamin r) selected_gender) filtered_df
    else filtered_df in
  filtered_df.

Record metrik_utama : Type := {
  total_responden : nat;
  avg_usage : float Q;
  avg_sleep : float Q;
  avg_health : float Q
}.

Definition skor_float (r : row) : Q := inject_Z (Skor_Kesehatan_Mental r).

Definition main_metrik (filtered_df : DataFrame) : metrik_utama :=
  {| total_responden := List.length filtered_df;
     avg_usage := pd.mean (map Durasi_Penggunaan_Harian filtered_df);
     avg_sleep := pd.mean (map Durasi_Tidur filtered_df);
     avg_health := pd.mean (map skor_float filtered_df) |}.

(** The interface of the spec types a mean as [float | None]: a float64
    value (a number or nan) or the no-data marker [None].  [Series.mean()]
    returns a float64, so the object behind a metric is always the float. *)
Inductive float_or_None : Type :=
| Float (x : float Q)
| None_.

Definition mean_object (x : float Q) : float_or_None := Float x.

Section MetricCards.
(** The fixed-point rendering of a finite float with the given number of
    decimals, which is Python's and not part of the program. *)
Variable fixed_point : nat -> Q -> string.

(** ['{:.Nf}'.format(v)]: a finite float is rendered in fixed point, nan is
    rendered as 'nan', and [None] does not support the format
    (TypeError). *)
Definition format_f (decimals : nat) (v : float_or_None) : option string :=
  match v with
  | Float (Num q) => Some (fixed_point decimals q)
  | Float NaN => Some "nan"%string
  | None_ => None
  end.

(** The contents of the four metric cards: the number of rows and the three
    formatted means. *)
Definition main_cards (filtered_df : DataFrame)
  : option (nat * string * string * string) :=
  let m := main_metrik filtered_df in
  match format_f 1 (mean_object (avg_usage m)),
        format_f 1 (mean_object (avg_sleep m)),
        format_f 0 (mean_object (avg_health m)) with
  | Some usage, Some sleep, Some health =>
      Some (total_responden m,
            (usage ++ " Jam/Hari")%string,
            (sleep ++ " Jam/Malam")%string,
            (health ++ " / 100")%string)
  | _, _, _ => None
  end.
End MetricCards.

(** ** [visualisasi_demografi]: the grouped mean [agg_df] *)

Record agg_row : Type := {
  agg_pendidikan : string;
  agg_gender : string;
  agg_durasi : float Q
}.

Definition demografi_key (r : row) : string * string :=
  (Tingkat_Pendidikan r, Jenis_Kelamin r).

Definition visualisasi_demografi (df : DataFrame) : list agg_row :=
  map (fun g =>
         {| agg_pendidikan := fst (fst g);
            agg_gender := snd (fst g);
            agg_durasi := pd.round 2 (pd.mean (map Durasi_Penggunaan_Harian (snd g))) |})
      (pd.groupby pd.pair_compare demografi_key df).

(** ** [visualisasi_korelasi]: the correlation matrix [corr_matrix] *)

Definition rel_cols : list (row -> Q) :=
  [Durasi_Penggunaan_Harian; Durasi_Tidur; skor_float].

Definition corr (cols : list (row -> Q)) (df : DataFrame) : list (list (float R)) :=
  map (fun cx => map (fun cy => pd.nancorr (map (fun r => (cx r, cy r)) df)) cols) cols.

Definition visualisasi_korelasi (df : DataFrame) : list (list (float R)) :=
  corr rel_cols df.

(** Entry [(i, j)] of a matrix, as [iloc[i, j]]. *)
Definition iloc (m : list (list (float R))) (i j : nat) : float R :=
  nth j (nth i m []) NaN.

(** ** [visualisasi_platform]: the ranking [platform_df] *)

Record platform_row : Type := {
  Platform : string;
  Rata_Rata_Durasi : float Q;
  Jumlah_Pengguna : Z
}.

Definition platform_agg (df : DataFrame) : list platform_row :=
  map (fun g =>
         {| Platform := fst g;
            Rata_Rata_Durasi := pd.round 1 (pd.mean (map Durasi_Penggunaan_Harian (snd g)));
            Jumlah_Pengguna := pd.round_int 1 (pd.count (snd g)) |})
      (pd.groupby String.compare Platform_Terbanyak_Digunakan df).

Definition visualisasi_platform (df : DataFrame) : list platform_row :=
  pd.sort_values_desc Rata_Rata_Durasi (platform_agg df).

(** ** Derived notions used in the statements *)

(** The value that [load_and_clean_data] clips and converts to the mental
    health score of a row. *)
Definition clipped_health (d : draw) : Q :=
  np.clip 10 100 (base_mental_health d - np.round 1 (uniform_usage d) * (25 # 10)).

(** A selector constrains a field unless it is the wildcard entry
    ['Semua'] of the select box. *)
Definition selects (selected field : string) : bool :=
  String.eqb selected Semua || String.eqb field selected.

Definition satisfies (selected_pendidikan selected_gender : string) (r : row) : bool :=
  selects selected_pendidikan (Tingkat_Pendidikan r) &&
  selects selected_gender (Jenis_Kelamin r).

Definition agg_key (a : agg_row) : string * string :=
  (agg_pendidikan a, agg_gender a).

(** The daily usage of the raw rows of one (education, gender) group. *)
Definition raw_group (df : DataFrame) (e g : string) : list Q :=
  map Durasi_Penggunaan_Harian
      (filter (fun r => String.eqb (Tingkat_Pendidikan r) e &&
                        String.eqb (Jenis_Kelamin r) g) df).

(** The mean recomputed directly from raw values: their total over their
    number, written without any operation of the pipeline. *)
Definition direct_mean (xs : list Q) : Q :=
  fold_right Qplus 0 xs / inject_Z (Z.of_nat (List.length xs)).



(** Three undergraduate respondents whose mean usage, 31/30, has no finite
    decimal expansion. *)
Definition df_thirds : DataFrame :=
  [ make_row {| choice_gender := "Perempuan"; choice_pendidikan := "Mahasiswa S1";
                uniform_usage := 1; choice_platform := "TikTok";
                base_sleep := 15 # 2; base_mental_health := 75 |};
    make_row {| choice_gender := "Perempuan"; choice_pendidikan := "Mahasiswa S1";
                uniform_usage := 1; choice_platform := "Instagram";
                base_sleep := 7; base_mental_health := 70 |};
    make_row {| choice_gender := "Perempuan"; choice_pendidikan := "Mahasiswa S1";
                uniform_usage := 11 # 10; choice_platform := "TikTok";
                base_sleep := 8; base_mental_health := 80 |} ].

(** The daily usage of the raw rows of one platform. *)
Definition platform_usage (df : DataFrame) (p : string) : list Q :=
  map Durasi_Penggunaan_Harian
      (filter (fun r => String.eqb (Platform_Terbanyak_Digunakan r) p) df).

(** A source of randomness whose platform picks cycle through the first
    [k] platforms of the list. *)
Definition rng_cycle (k : nat) (i : nat) : draw :=
  {| choice_gender := nth (i mod 2) gender_choices "Perempuan"%string;
     choice_pendidikan := nth (i mod 3) pendidikan_choices "Mahasiswa S1"%string;
     uniform_usage := 1 + inject_Z (Z.of_nat (i mod 110)) / 10;
     choice_platform := nth (i mod k) platform_choices "Instagram"%string;
     base_sleep := 15 # 2;
     base_mental_health := 75 |}.

(** A table in which every platform occurs, and one without 'Facebook'. *)
Definition df_all_platforms : DataFrame := load_and_clean_data (rng_cycle 5).
Definition df_no_facebook : DataFrame := load_and_clean_data (rng_cycle 4).

(** One respondent with the given platform and usage draw. *)
Definition responden (p : string) (usage : Q) : row :=
  make_row {| choice_gender := "Perempuan"; choice_pendidikan := "Mahasiswa S1";
              uniform_usage := usage; choice_platform := p;
              base_sleep := 15 # 2; base_mental_health := 75 |}.

(** Two platforms whose exact means, 4.9666... and 5.0333..., both round
    to 5.0. *)
Definition df_tie : DataFrame :=
  [ responden "Instagram" (49 # 10); responden "Instagram" 5; responden "Instagram" 5;
    responden "TikTok" 5; responden "TikTok" 5; responden "TikTok" (51 # 10) ].

(** The entry of two columns, before it is placed in the matrix. *)
Definition corr_entry (f g : row -> Q) (df : DataFrame) : float R :=
  pd.nancorr (map (fun r => (f r, g r)) df).

(** The sum of squared deviations of a column, as [nancorr] computes it. *)
Definition col_ssqdm (f : row -> Q) (df : DataFrame) : Q :=
  pd.ssqdm (map f df) (pd.sum (map f df) / inject_Z (Z.of_nat (List.length df))).

(** Column [i] of [rel_cols]. *)
Definition rel_col (i : nat) : row -> Q := nth i rel_cols (fun _ => 0).

(** A small table whose three numeric columns all vary. *)
Definition df_varied : DataFrame :=
  [ make_row {| choice_gender := "Perempuan"; choice_pendidikan := "Mahasiswa S1";
                uniform_usage := 2; choice_platform := "TikTok";
                base_sleep := 7; base_mental_health := 70 |};
    make_row {| choice_gender := "Laki-laki"; choice_pendidikan := "Pelajar SMA";
                uniform_usage := 5; choice_platform := "Instagram";
                base_sleep := 8; base_mental_health := 80 |};
    make_row {| choice_gender := "Perempuan"; choice_pendidikan := "Mahasiswa S1";
                uniform_usage := 9; choice_platform := "YouTube";
                base_sleep := 15 # 2; base_mental_health := 60 |} ].

(** ** The rest of the pipeline: select boxes, narrative, totals *)

(** [Series.unique()]: the distinct values in order of first appearance. *)
Fixpoint unique (l : list string) : list string :=
  match l with
  | [] => []
  | x :: l' => x :: filter (fun y => negb (String.eqb y x)) (unique l')
  end.

(** The entries that the two select boxes of the sidebar offer. *)
Definition pendidikan_options (df : DataFrame) : list string :=
  [Semua] ++ unique (map Tingkat_Pendidikan df).

Definition gender_options (df : DataFrame) : list string :=
  [Semua] ++ unique (map Jenis_Kelamin df).

(** The two numbers of the sidebar note, [len(filtered_df)] and [len(df)]. *)
Definition sidebar_info (df filtered : DataFrame) : nat * nat :=
  (List.length filtered, List.length df).

(** The labels of the rows and columns of [corr_matrix]. *)
Definition rel_col_names : list string :=
  ["Durasi_Penggunaan_Harian"; "Durasi_Tidur"; "Skor_Kesehatan_Mental"]%string.

Fixpoint get_loc (label : string) (labels : list string) : option nat :=
  match labels with
  | [] => None
  | l :: labels' =>
      if String.eqb l label then Some 0%nat
      else option_map S (get_loc label labels')
  end.

(** [corr_matrix.loc[r, c]]: the entry at two labels; an unknown label is a
    KeyError. *)
Definition loc (m : list (list (float R))) (r c : string) : option (float R) :=
  match get_loc r rel_col_names, get_loc c rel_col_names with
  | Some i, Some j => Some (iloc m i j)
  | _, _ => None
  end.

(** The three coefficients that the narrative of [visualisasi_korelasi]
    quotes: [corr_health], [corr_sleep] and [corr_sleep_health]. *)
Definition narasi_korelasi (df : DataFrame)
  : option (float R * float R * float R) :=
  let corr_matrix := visualisasi_korelasi df in
  match loc corr_matrix "Durasi_Penggunaan_Harian" "Skor_Kesehatan_Mental",
        loc corr_matrix "Durasi_Penggunaan_Harian" "Durasi_Tidur",
        loc corr_matrix "Durasi_Tidur" "Skor_Kesehatan_Mental" with
  | Some corr_health, Some corr_sleep, Some corr_sleep_health =>
      Some (corr_health, corr_sleep, corr_sleep_health)
  | _, _, _ => None
  end.

(** A coefficient that the heat map can show on its scale from -1 to 1. *)
Definition on_scale (x : float R) : Prop :=
  match x with
  | Num r => (-1 <= r <= 1)%R
  | NaN => True
  end.

(** The users of all rows of a ranking together. *)
Definition total_pengguna (rows : list platform_row) : Z :=
  fold_right Z.add 0%Z (map Jumlah_Pengguna rows).

(** A float column value that is a number between two bounds. *)
Definition num_between (lo hi : Q) (x : float Q) : Prop :=
  match x with
  | Num q => lo <= q /\ q <= hi
  | NaN => False
  end.

(** A source of randomness in which the education pick follows the gender
    pick, so that not every pair of the two occurs. *)
Definition rng_paired (i : nat) : draw :=
  {| choice_gender := nth (i mod 2) gender_choices "Perempuan"%string;
     choice_pendidikan := nth (i mod 2) pendidikan_choices "Mahasiswa S1"%string;
     uniform_usage := 1 + inject_Z (Z.of_nat (i mod 110)) / 10;
     choice_platform := nth (i mod 5) platform_choices "Instagram"%string;
     base_sleep := 15 # 2;
     base_mental_health := 75 |}.

Definition df_paired : DataFrame := load_and_clean_data rng_paired.

(** The number behind a float column value, 0 for NaN. *)
Definition float_value (x : float Q) : Q :=
  match x with
  | Num q => q
  | NaN => 0
  end.

(** The averages of a ranking weighted by their user counts, added up. *)
Definition weighted_usage (rows : list platform_row) : Q :=
  pd.sum (map (fun a => inject_Z (Jumlah_Pengguna a) * float_value (Rata_Rata_Durasi a))
              rows).

(** The sizes of the groups of the given keys, added up, and the same for
    a weight carried by each row. *)
Definition group_sizes {K A : Type} (cmp : K -> K -> comparison) (key : A -> K)
  (ks : list K) (l : list A) : nat :=
  fold_right Nat.add 0%nat
    (map (fun k => List.length (filter (fun r => pd.key_eqb cmp (key r) k) l)) ks).

Definition group_weights {K A : Type} (cmp : K -> K -> comparison) (key : A -> K)
  (w : A -> Q) (ks : list K) (l : list A) : Q :=
  pd.sum (map (fun k => pd.sum (map w (filter (fun r => pd.key_eqb cmp (key r) k) l))) ks).

(** * Properties *)

(** ** Rounding, clipping and truncation *)

Lemma rint_floor_or_succ (q : Q) :
  np.rint q = Qfloor q \/ np.rint q = (Qfloor q + 1)%Z.
Proof.
  unfold np.rint.
  destruct (Qcompare (q - inject_Z (Qfloor q)) (1 # 2)); auto.
  destruct (Z.even (Qfloor q)); auto.
Qed.

Lemma rint_inject_Z (z : Z) : np.rint (inject_Z z) = z.
Proof.
  unfold np.rint. rewrite Qfloor_Z.
  assert (H : Qcompare (inject_Z z - inject_Z z) (1 # 2) = Lt).
  { rewrite <- Qlt_alt. lra. }
  now rewrite H.
Qed.

Lemma rint_bounds (a b : Z) (q : Q) :
  inject_Z a <= q -> q <= inject_Z b -> (a <= np.rint q <= b)%Z.
Proof.
  intros Ha Hb.
  assert (Hfa : (a <= Qfloor q)%Z).
  { rewrite <- (Qfloor_Z a). now apply Qfloor_resp_le. }
  assert (Hfb : (Qfloor q <= b)%Z).
  { rewrite <- (Qfloor_Z b). now apply Qfloor_resp_le. }
  split.
  - destruct (rint_floor_or_succ q) as [-> | ->]; lia.
  - destruct (Z.eq_dec (Qfloor q) b) as [E | NE].
    + unfold np.rint.
      assert (H : Qcompare (q - inject_Z (Qfloor q)) (1 # 2) = Lt).
      { rewrite <- Qlt_alt, E. lra. }
      rewrite H. lia.
    + destruct (rint_floor_or_succ q) as [-> | ->]; lia.
Qed.

Lemma pow10_pos (d : nat) : 0 < inject_Z (10 ^ Z.of_nat d).
Proof.
  replace 0 with (inject_Z 0) by reflexivity.
  rewrite <- Zlt_Qlt. apply Z.pow_pos_nonneg; lia.
Qed.

Lemma np_round_bounds (d : nat) (a b : Z) (q : Q) :
  inject_Z a <= q -> q <= inject_Z b ->
  inject_Z a <= np.round d q /\ np.round d q <= inject_Z b.
Proof.
  intros Ha Hb. unfold np.round.
  set (s := (10 ^ Z.of_nat d)%Z).
  assert (Hs : 0 < inject_Z s) by apply pow10_pos.
  destruct (rint_bounds (a * s) (b * s) (q * inject_Z s)) as [H1 H2].
  - rewrite inject_Z_mult. nra.
  - rewrite inject_Z_mult. nra.
  - rewrite Zle_Qle, inject_Z_mult in H1, H2.
    split.
    + apply Qle_shift_div_l; trivial.
    + apply Qle_shift_div_r; trivial.
Qed.

Lemma np_clip_bounds (lo hi x : Q) :
  lo <= hi -> lo <= np.clip lo hi x /\ np.clip lo hi x <= hi.
Proof.
  intros Hlh. unfold np.clip.
  destruct (Qle_bool lo x) eqn:E1.
  - apply Qle_bool_iff in E1.
    destruct (Qle_bool x hi) eqn:E2.
    + apply Qle_bool_iff in E2. lra.
    + lra.
  - destruct (Qle_bool lo hi) eqn:E2; lra.
Qed.

(** On a non-negative value dropping the fraction is the floor. *)
Lemma astype_int_floor (q : Q) : 0 <= q -> np.astype_int q = Qfloor q.
Proof.
  intros Hq. destruct q as [n d]. unfold np.astype_int, Qfloor. simpl.
  apply Z.quot_div_nonneg; [|lia].
  unfold Qle in Hq. simpl in Hq. lia.
Qed.

Lemma astype_int_bounds (a b : Z) (q : Q) :
  (0 <= a)%Z -> inject_Z a <= q -> q <= inject_Z b ->
  (a <= np.astype_int q <= b)%Z.
Proof.
  intros H0 Ha Hb.
  rewrite astype_int_floor.
  - split.
    + rewrite <- (Qfloor_Z a). now apply Qfloor_resp_le.
    + rewrite <- (Qfloor_Z b). now apply Qfloor_resp_le.
  - apply Qle_trans with (inject_Z a); trivial.
    replace 0 with (inject_Z 0) by reflexivity. now rewrite <- Zle_Qle.
Qed.

(** ** The generator *)

Lemma make_row_sleep_bounds (d : draw) :
  3 <= Durasi_Tidur (make_row d) /\ Durasi_Tidur (make_row d) <= 10.
Proof.
  unfold make_row; simpl.
  set (x := base_sleep d - _).
  destruct (np_clip_bounds 3 10 x) as [H1 H2]; [lra|].
  apply (np_round_bounds 1 3 10); assumption.
Qed.

Lemma make_row_skor_bounds (d : draw) :
  (10 <= Skor_Kesehatan_Mental (make_row d) <= 100)%Z.
Proof.
  unfold make_row; simpl.
  set (x := base_mental_health d - _).
  destruct (np_clip_bounds 10 100 x) as [H1 H2]; [lra|].
  apply astype_int_bounds; [lia | assumption | assumption].
Qed.

Lemma load_and_clean_data_length (rng : nat -> draw) :
  List.length (load_and_clean_data rng) = n_samples.
Proof. unfold load_and_clean_data. now rewrite length_map, length_seq. Qed.

(** A uniform draw from [1, 12) rounded to one decimal stays in [1, 12]. *)
Lemma make_row_usage_bounds (d : draw) :
  draw_ok d ->
  1 <= Durasi_Penggunaan_Harian (make_row d) /\
  Durasi_Penggunaan_Harian (make_row d) <= 12.
Proof.
  intros (_ & _ & [H1 H2] & _). unfold make_row; simpl.
  apply (np_round_bounds 1 1 12); unfold inject_Z; lra.
Qed.

(** C3: every row that [load_and_clean_data] generates has its sleep
    duration in [3, 10] and its mental health score in [10, 100], whatever
    the random draws are (so in particular for every daily usage in
    [1, 12] and every noise draw). *)
Theorem load_and_clean_data_clamp_invariant (rng : nat -> draw) :
  Forall (fun r =>
            (3 <= Durasi_Tidur r /\ Durasi_Tidur r <= 10) /\
            (10 <= Skor_Kesehatan_Mental r <= 100)%Z)
         (load_and_clean_data rng).
Proof.
  unfold load_and_clean_data. apply Forall_forall. intros r Hr.
  apply in_map_iff in Hr. destruct Hr as (i & <- & _).
  split; [apply make_row_sleep_bounds | apply make_row_skor_bounds].
Qed.

(** C10: the mental health score is the clipped value with its fractional
    part dropped (the integer [s] with [s <= v < s + 1]), it stays in
    [10, 100], and it is not the nearest integer: some admissible draw gives
    a score different from the rounded value. *)
Theorem skor_truncates_clipped_value :
  (forall d : draw,
      let v := clipped_health d in
      let s := Skor_Kesehatan_Mental (make_row d) in
      s = np.astype_int v /\
      (inject_Z s <= v /\ v < inject_Z s + 1) /\
      (10 <= s <= 100)%Z) /\
  (exists d : draw,
      draw_ok d /\
      Skor_Kesehatan_Mental (make_row d) = 75%Z /\
      np.rint (clipped_health d) = 76%Z).
Proof.
  split.
  - intros d v s. split; [reflexivity|]. split.
    + subst s. unfold make_row; simpl. fold (clipped_health d). fold v.
      assert (Hv : 0 <= v).
      { unfold v, clipped_health.
        match goal with |- _ <= np.clip 10 100 ?x =>
          destruct (np_clip_bounds 10 100 x); lra end. }
      rewrite astype_int_floor by assumption.
      split; [apply Qfloor_le|].
      rewrite <- (inject_Z_plus _ 1). apply Qlt_floor.
    + apply make_row_skor_bounds.
  - exists {| choice_gender := "Perempuan"; choice_pendidikan := "Mahasiswa S1";
              uniform_usage := 2; choice_platform := "TikTok";
              base_sleep := 7; base_mental_health := 807 # 10 |}.
    split.
    + unfold draw_ok; simpl. repeat split; auto 10; try lra.
    + split; reflexivity.
Qed.

(** ** The sidebar filters *)

Lemma filter_filter {A} (f g : A -> bool) (l : list A) :
  filter g (filter f l) = filter (fun x => f x && g x) l.
Proof.
  induction l as [|a l IH]; simpl; trivial.
  destruct (f a); simpl; [destruct (g a)|]; now rewrite IH.
Qed.

Lemma filter_true {A} (f : A -> bool) (l : list A) :
  (forall x, In x l -> f x = true) -> filter f l = l.
Proof.
  induction l as [|a l IH]; simpl; intros H; trivial.
  rewrite (H a) by auto. f_equal. apply IH. auto.
Qed.

Lemma filter_false {A} (f : A -> bool) (l : list A) :
  (forall x, In x l -> f x = false) -> filter f l = [].
Proof.
  induction l as [|a l IH]; simpl; intros H; trivial.
  rewrite (H a) by auto. apply IH. auto.
Qed.

Lemma filtered_df_filter (df : DataFrame) (sp sg : string) :
  filtered_df df sp sg = filter (satisfies sp sg) df.
Proof.
  unfold filtered_df, satisfies, selects.
  destruct (String.eqb sp Semua); destruct (String.eqb sg Semua); simpl.
  - symmetry. now apply filter_true.
  - reflexivity.
  - apply filter_ext. intros r. now rewrite andb_true_r.
  - apply filter_filter.
Qed.

Lemma selects_spec (selected field : string) :
  selects selected field = true <-> selected = Semua \/ field = selected.
Proof.
  unfold selects. rewrite orb_true_iff, !String.eqb_eq. tauto.
Qed.

Lemma satisfies_spec (sp sg : string) (r : row) :
  satisfies sp sg r = true <->
  (sp = Semua \/ Tingkat_Pendidikan r = sp) /\
  (sg = Semua \/ Jenis_Kelamin r = sg).
Proof.
  unfold satisfies. now rewrite andb_true_iff, !selects_spec.
Qed.

Lemma filtered_df_exactly_matching_rows_aux (df : DataFrame) (sp sg : string) (r : row) :
  In r (filtered_df df sp sg) <->
  In r df /\
  (sp = Semua \/ Tingkat_Pendidikan r = sp) /\
  (sg = Semua \/ Jenis_Kelamin r = sg).
Proof. now rewrite filtered_df_filter, filter_In, satisfies_spec. Qed.

(** C2: for every table and every pair of selectors (each one either the
    wildcard or a literal value), the filter keeps exactly the rows that
    satisfy both selectors, in their order and multiplicity; when no row
    matches the result is the empty table, and a literal that does not
    occur in its column gives the empty table. *)
Theorem filtered_df_exactly_matching_rows (df : DataFrame) (sp sg : string) :
  filtered_df df sp sg = filter (satisfies sp sg) df /\
  (forall r, In r (filtered_df df sp sg) <->
             In r df /\
             (sp = Semua \/ Tingkat_Pendidikan r = sp) /\
             (sg = Semua \/ Jenis_Kelamin r = sg)) /\
  ((forall r, In r df -> satisfies sp sg r = false) -> filtered_df df sp sg = []) /\
  (sp <> Semua -> ~ In sp (map Tingkat_Pendidikan df) -> filtered_df df sp sg = []) /\
  (sg <> Semua -> ~ In sg (map Jenis_Kelamin df) -> filtered_df df sp sg = []).
Proof.
  rewrite filtered_df_filter. split; [reflexivity|]. split; [|split; [|split]].
  - intros r. now rewrite filter_In, satisfies_spec.
  - apply filter_false.
  - intros Hsp Hnot. apply filter_false. intros r Hr.
    destruct (satisfies sp sg r) eqn:E; trivial.
    apply satisfies_spec in E. destruct E as [[E | E] _]; [contradiction|].
    exfalso. apply Hnot. rewrite <- E. now apply in_map.
  - intros Hsg Hnot. apply filter_false. intros r Hr.
    destruct (satisfies sp sg r) eqn:E; trivial.
    apply satisfies_spec in E. destruct E as [_ [E | E]]; [contradiction|].
    exfalso. apply Hnot. rewrite <- E. now apply in_map.
Qed.

(** C8: with both selectors left at the wildcard the filter returns the
    table it was given. *)
Theorem filtered_df_no_constraint (df : DataFrame) :
  filtered_df df Semua Semua = df.
Proof. reflexivity. Qed.

(** ** Group keys *)

Section GroupByFacts.
Context {K : Type} (cmp : K -> K -> comparison).
Hypothesis cmp_eq : forall a b, cmp a b = Eq <-> a = b.
Hypothesis cmp_antisym : forall a b, cmp a b = CompOpp (cmp b a).
Hypothesis cmp_trans : forall a b c, cmp a b = Lt -> cmp b c = Lt -> cmp a c = Lt.

Lemma key_lt_irrefl (a : K) : ~ (pd.key_lt cmp) a a.
Proof.
  unfold pd.key_lt. intros H. assert (E : cmp a a = Eq) by now apply cmp_eq.
  congruence.
Qed.

Lemma key_eqb_eq (a b : K) : pd.key_eqb cmp a b = true <-> a = b.
Proof.
  unfold pd.key_eqb. rewrite <- cmp_eq.
  destruct (cmp a b); split; congruence.
Qed.

Lemma insert_key_In (k x : K) (ks : list K) :
  In x (pd.insert_key cmp k ks) <-> x = k \/ In x ks.
Proof.
  induction ks as [|k' ks IH]; simpl.
  - intuition.
  - destruct (cmp k k') eqn:E; simpl.
    + apply cmp_eq in E. subst k'. intuition.
    + intuition.
    + rewrite IH. intuition.
Qed.

Lemma insert_key_sorted (k : K) (ks : list K) :
  StronglySorted (pd.key_lt cmp) ks -> StronglySorted (pd.key_lt cmp) (pd.insert_key cmp k ks).
Proof.
  induction 1 as [|k' ks Hs IH Hall]; simpl.
  - constructor; constructor.
  - destruct (cmp k k') eqn:E.
    + now constructor.
    + constructor; [now constructor|].
      constructor; trivial.
      eapply Forall_impl; [|exact Hall].
      intros c Hc. now apply cmp_trans with k'.
    + constructor; trivial.
      apply Forall_forall. intros x Hx. apply insert_key_In in Hx.
      destruct Hx as [-> | Hx].
      * unfold pd.key_lt. rewrite cmp_antisym, E. reflexivity.
      * rewrite Forall_forall in Hall. now apply Hall.
Qed.

Lemma group_keys_In (x : K) (ks : list K) :
  In x (pd.group_keys cmp ks) <-> In x ks.
Proof.
  induction ks as [|k ks IH]; simpl; [tauto|].
  rewrite insert_key_In, IH. intuition.
Qed.

Lemma group_keys_sorted (ks : list K) :
  StronglySorted (pd.key_lt cmp) (pd.group_keys cmp ks).
Proof.
  induction ks as [|k ks IH]; simpl; [constructor|].
  now apply insert_key_sorted.
Qed.

Lemma sorted_NoDup (ks : list K) : StronglySorted (pd.key_lt cmp) ks -> NoDup ks.
Proof.
  induction 1 as [|k ks Hs IH Hall]; constructor; trivial.
  intros Hin. rewrite Forall_forall in Hall.
  exact (key_lt_irrefl k (Hall k Hin)).
Qed.

(** Two strictly sorted key lists with the same elements are the same
    list: the order of the groups depends on the set of keys only. *)
Lemma sorted_unique (l1 l2 : list K) :
  StronglySorted (pd.key_lt cmp) l1 -> StronglySorted (pd.key_lt cmp) l2 ->
  (forall x, In x l1 <-> In x l2) -> l1 = l2.
Proof.
  intros H1. revert l2.
  induction H1 as [|a l1 Hs1 IH Ha]; intros l2 H2 Hiff.
  - destruct l2 as [|b l2]; trivial.
    exfalso. apply (proj2 (Hiff b)). now left.
  - destruct H2 as [|b l2 Hs2 Hb].
    + exfalso. apply (proj1 (Hiff a)). now left.
    + rewrite Forall_forall in Ha, Hb.
      assert (Eab : a = b).
      { destruct (proj1 (Hiff a) (or_introl eq_refl)) as [E | Hin]; [auto|].
        destruct (proj2 (Hiff b) (or_introl eq_refl)) as [E | Hin']; [auto|].
        exfalso. apply (key_lt_irrefl a).
        apply cmp_trans with b; [now apply Ha | now apply Hb]. }
      subst b. f_equal. apply IH; trivial.
      intros x. split; intros Hx.
      * destruct (proj1 (Hiff x) (or_intror Hx)) as [E | Hin]; trivial.
        subst x. exfalso. exact (key_lt_irrefl a (Ha a Hx)).
      * destruct (proj2 (Hiff x) (or_intror Hx)) as [E | Hin]; trivial.
        subst x. exfalso. exact (key_lt_irrefl a (Hb a Hx)).
Qed.

Context {A : Type} (key : A -> K).

Lemma groupby_keys (df : list A) :
  map fst (pd.groupby cmp key df) = pd.group_keys cmp (map key df).
Proof.
  unfold pd.groupby. rewrite map_map. simpl. apply map_id.
Qed.

Lemma groupby_In (k : K) (g : list A) (df : list A) :
  In (k, g) (pd.groupby cmp key df) <->
  In k (map key df) /\ g = filter (fun r => pd.key_eqb cmp (key r) k) df.
Proof.
  unfold pd.groupby. rewrite in_map_iff. split.
  - intros (k' & E & Hin). injection E as -> <-.
    split; [exact (proj1 (group_keys_In _ _) Hin) | reflexivity].
  - intros (Hin & ->). exists k. split; trivial.
    exact (proj2 (group_keys_In _ _) Hin).
Qed.

Lemma groupby_group_nonempty (k : K) (g : list A) (df : list A) :
  In (k, g) (pd.groupby cmp key df) -> g <> [].
Proof.
  intros H. apply groupby_In in H. destruct H as (Hin & ->).
  apply in_map_iff in Hin. destruct Hin as (r & <- & Hr).
  intros E.
  assert (Hf : In r (filter (fun r0 => pd.key_eqb cmp (key r0) (key r)) df)).
  { apply filter_In. split; trivial. now apply key_eqb_eq. }
  rewrite E in Hf. inversion Hf.
Qed.

End GroupByFacts.

(** The string order and the order on key tuples are strict total orders. *)

Lemma string_compare_eq (a b : string) : String.compare a b = Eq <-> a = b.
Proof.
  split; [apply String.compare_eq_iff|].
  intros ->. induction b as [|c b IH]; simpl; trivial.
  assert (E : Ascii.compare c c = Eq).
  { unfold Ascii.compare. apply N.compare_refl. }
  now rewrite E.
Qed.

Lemma string_compare_trans (a b c : string) :
  String.compare a b = Lt -> String.compare b c = Lt -> String.compare a c = Lt.
Proof.
  intros H1 H2.
  apply String_as_OT.cmp_lt. apply String_as_OT.lt_trans with b;
    now apply String_as_OT.cmp_lt.
Qed.

Lemma pair_compare_eq (a b : string * string) : pd.pair_compare a b = Eq <-> a = b.
Proof.
  destruct a as [a1 a2], b as [b1 b2]. unfold pd.pair_compare; simpl. split.
  - destruct (String.compare a1 b1) eqn:E; try discriminate.
    intros E2. apply string_compare_eq in E, E2. congruence.
  - intros [= -> ->].
    rewrite (proj2 (string_compare_eq b1 b1) eq_refl).
    now apply string_compare_eq.
Qed.

Lemma pair_compare_antisym (a b : string * string) :
  pd.pair_compare a b = CompOpp (pd.pair_compare b a).
Proof.
  destruct a as [a1 a2], b as [b1 b2]. unfold pd.pair_compare; simpl.
  rewrite (String.compare_antisym a1 b1).
  destruct (String.compare b1 a1); simpl; trivial.
  apply String.compare_antisym.
Qed.

Lemma pair_compare_trans (a b c : string * string) :
  pd.pair_compare a b = Lt -> pd.pair_compare b c = Lt -> pd.pair_compare a c = Lt.
Proof.
  destruct a as [a1 a2], b as [b1 b2], c as [c1 c2].
  unfold pd.pair_compare; simpl.
  destruct (String.compare a1 b1) eqn:E1; try discriminate;
    destruct (String.compare b1 c1) eqn:E2; try discriminate; intros H1 H2.
  - apply string_compare_eq in E1, E2. subst.
    rewrite (proj2 (string_compare_eq c1 c1) eq_refl).
    now apply string_compare_trans with b2.
  - apply string_compare_eq in E1. subst. now rewrite E2.
  - apply string_compare_eq in E2. subst. now rewrite E1.
  - now rewrite (string_compare_trans _ _ _ E1 E2).
Qed.

(** ** Means *)

Lemma mean_nan_iff (xs : list Q) : pd.mean xs = NaN <-> xs = [].
Proof. destruct xs; simpl; split; congruence. Qed.

Lemma mean_num (xs : list Q) :
  xs <> [] -> pd.mean xs = Num (pd.sum xs / inject_Z (pd.count xs)).
Proof. destruct xs; simpl; congruence. Qed.

(** C1 (as amended): on the empty filtered table the summary has count 0
    and the three means are the float NaN that pandas returns when there is
    nothing to average; NaN is distinct from every number, zero included,
    and a mean is NaN exactly when the table has no rows.  Nothing raises:
    the cards are always produced, and on the empty table they show 'nan'. *)
Theorem main_metrik_empty_table :
  main_metrik [] =
    {| total_responden := 0; avg_usage := NaN; avg_sleep := NaN; avg_health := NaN |} /\
  (forall q : Q, @NaN Q <> Num q) /\
  (forall df : DataFrame,
      (avg_usage (main_metrik df) = NaN <-> df = []) /\
      (avg_sleep (main_metrik df) = NaN <-> df = []) /\
      (avg_health (main_metrik df) = NaN <-> df = []) /\
      (total_responden (main_metrik df) = 0%nat <-> df = [])) /\
  (forall fixed_point df, main_cards fixed_point df <> None) /\
  (forall fixed_point,
      main_cards fixed_point [] =
      Some (0%nat, "nan Jam/Hari", "nan Jam/Malam", "nan / 100")%string).
Proof.
  split; [reflexivity|]. split; [discriminate|]. split; [|split].
  - intros df. unfold main_metrik; simpl. rewrite !mean_nan_iff.
    destruct df; simpl; repeat split; congruence.
  - intros fp df. unfold main_cards, mean_object, format_f.
    destruct (avg_usage (main_metrik df)), (avg_sleep (main_metrik df)),
      (avg_health (main_metrik df)); discriminate.
  - reflexivity.
Qed.

(** ** The grouped mean *)

Lemma demografi_key_eqb (r : row) (e g : string) :
  pd.key_eqb pd.pair_compare (demografi_key r) (e, g) =
  String.eqb (Tingkat_Pendidikan r) e && String.eqb (Jenis_Kelamin r) g.
Proof.
  apply eq_true_iff_eq.
  rewrite (key_eqb_eq _ pair_compare_eq), andb_true_iff, !String.eqb_eq.
  unfold demografi_key. split; [intros [= -> ->]; auto | intros [-> ->]; auto].
Qed.

Lemma visualisasi_demografi_keys (df : DataFrame) :
  map agg_key (visualisasi_demografi df) =
  pd.group_keys pd.pair_compare (map demografi_key df).
Proof.
  unfold visualisasi_demografi. rewrite map_map.
  rewrite <- (groupby_keys pd.pair_compare demografi_key df).
  apply map_ext. intros [[e g] rows]. reflexivity.
Qed.

Lemma visualisasi_demografi_In (df : DataFrame) (a : agg_row) :
  In a (visualisasi_demografi df) ->
  In (agg_key a) (map demografi_key df) /\
  agg_durasi a =
    pd.round 2 (pd.mean (raw_group df (agg_pendidikan a) (agg_gender a))).
Proof.
  unfold visualisasi_demografi. rewrite in_map_iff.
  intros ([[e g] rows] & <- & Hin). simpl.
  apply (groupby_In _ pair_compare_eq) in Hin. destruct Hin as (Hk & ->).
  split; trivial. unfold agg_key, raw_group; simpl.
  do 3 f_equal. apply filter_ext. intros r. apply demografi_key_eqb.
Qed.

Lemma in_demografi_keys (df : DataFrame) (e g : string) :
  In (e, g) (map demografi_key df) <->
  exists r, In r df /\ Tingkat_Pendidikan r = e /\ Jenis_Kelamin r = g.
Proof.
  rewrite in_map_iff. unfold demografi_key. split.
  - intros (r & [= <- <-] & Hr). eauto.
  - intros (r & Hr & <- & <-). eauto.
Qed.

Lemma raw_group_nonempty (df : DataFrame) (e g : string) :
  In (e, g) (map demografi_key df) -> raw_group df e g <> [].
Proof.
  rewrite in_demografi_keys. intros (r & Hr & <- & <-) E.
  unfold raw_group in E. apply map_eq_nil in E.
  assert (Hf : In r (filter (fun r0 =>
            String.eqb (Tingkat_Pendidikan r0) (Tingkat_Pendidikan r) &&
            String.eqb (Jenis_Kelamin r0) (Jenis_Kelamin r)) df)).
  { apply filter_In. split; trivial. now rewrite !String.eqb_refl. }
  rewrite E in Hf. inversion Hf.
Qed.



Lemma rint_error (q : Q) : Qabs (inject_Z (np.rint q) - q) <= 1 # 2.
Proof.
  apply Qabs_Qle_condition.
  pose proof (Qfloor_le q) as H1. pose proof (Qlt_floor q) as H2.
  rewrite inject_Z_plus in H2. unfold np.rint.
  destruct (Qcompare (q - inject_Z (Qfloor q)) (1 # 2)) eqn:E.
  - apply Qeq_alt in E.
    destruct (Z.even (Qfloor q)); rewrite ?inject_Z_plus;
      change (inject_Z 1) with 1 in *; split; lra.
  - apply Qlt_alt in E. split; lra.
  - apply Qgt_alt in E. rewrite inject_Z_plus.
    change (inject_Z 1) with 1 in *. split; lra.
Qed.

(** Rounding to [d] decimals moves a value by at most half a unit of the
    last kept decimal. *)
Lemma np_round_error (d : nat) (q : Q) :
  Qabs (np.round d q - q) <= (1 # 2) / inject_Z (10 ^ Z.of_nat d).
Proof.
  unfold np.round. set (s := inject_Z (10 ^ Z.of_nat d)).
  assert (Hs : 0 < s) by apply pow10_pos.
  pose proof (rint_error (q * s)) as H.
  apply Qabs_Qle_condition in H. apply Qabs_Qle_condition.
  assert (Hi : 0 < / s) by now apply Qinv_lt_0_compat.
  assert (E : q * s * / s == q) by (field; lra).
  unfold Qdiv. set (i := / s) in *. split; nra.
Qed.

Lemma mean_direct (xs : list Q) :
  xs <> [] -> pd.mean xs = Num (direct_mean xs).
Proof. intros H. rewrite (mean_num _ H). reflexivity. Qed.

(** Rounding to [d] decimals moves a value by less than one unit of the
    last kept decimal. *)
Lemma np_round_within_unit (d : nat) (q : Q) :
  Qabs (np.round d q - q) < 1 / inject_Z (10 ^ Z.of_nat d).
Proof.
  eapply Qle_lt_trans; [apply np_round_error|].
  pose proof (pow10_pos d) as Hs.
  assert (Hi : 0 < / inject_Z (10 ^ Z.of_nat d)) by now apply Qinv_lt_0_compat.
  unfold Qdiv. set (i := / inject_Z (10 ^ Z.of_nat d)) in *. lra.
Qed.

(** The value of a group of the grouped mean: a multiple of 0.01 that is
    less than 0.01 away from the mean recomputed from the raw values. *)
Lemma group_average_two_decimals (xs : list Q) :
  xs <> [] ->
  exists v k,
    pd.round 2 (pd.mean xs) = Num v /\
    v == inject_Z k / 100 /\
    Qabs (v - direct_mean xs) < 1 # 100.
Proof.
  intros Hne. rewrite (mean_direct _ Hne). cbn [pd.round].
  exists (np.round 2 (direct_mean xs)), (np.rint (direct_mean xs * 100)).
  split; [reflexivity|]. split; [reflexivity|].
  eapply Qlt_le_trans; [apply np_round_within_unit|].
  apply Qle_bool_iff. reflexivity.
Qed.



(** ** Sorting by a float column *)

Section SortValuesFacts.
Context {A : Type} (by_ : A -> float Q).

Lemma insert_desc_perm (x : A) (l : list A) :
  Permutation (x :: l) (pd.insert_desc by_ x l).
Proof.
  induction l as [|y l IH]; simpl; [reflexivity|].
  destruct (pd.key_ltb by_ x y); [|reflexivity].
  rewrite perm_swap. now constructor.
Qed.

Lemma fold_insert_desc_perm (l : list A) :
  Permutation l (fold_right (pd.insert_desc by_) [] l).
Proof.
  induction l as [|x l IH]; simpl; [constructor|].
  rewrite <- insert_desc_perm. now constructor.
Qed.

Lemma filter_partition_perm (f : A -> bool) (l : list A) :
  Permutation l (filter (fun a => negb (f a)) l ++ filter f l).
Proof.
  induction l as [|x l IH]; simpl; [constructor|].
  destruct (f x); simpl.
  - rewrite <- Permutation_middle. now constructor.
  - now constructor.
Qed.

Lemma sort_values_desc_perm (l : list A) :
  Permutation l (pd.sort_values_desc by_ l).
Proof.
  unfold pd.sort_values_desc.
  rewrite <- fold_insert_desc_perm.
  apply (filter_partition_perm (fun a => is_nan (by_ a))).
Qed.

Lemma key_ltb_true (x y : A) :
  pd.key_ltb by_ x y = true -> pd.key_ge by_ y x.
Proof.
  unfold pd.key_ltb, pd.key_ge.
  destruct (by_ x) as [qx|], (by_ y) as [qy|]; try discriminate.
  rewrite negb_true_iff. intros H.
  destruct (Qlt_le_dec qy qx) as [Hlt | Hle]; [|exact Hle].
  apply Qlt_le_weak.
  destruct (Qlt_le_dec qx qy) as [Hlt' | Hle']; trivial.
  apply Qle_bool_iff in Hle'. congruence.
Qed.

Lemma key_ltb_false (x y : A) :
  by_ x <> NaN -> by_ y <> NaN ->
  pd.key_ltb by_ x y = false -> pd.key_ge by_ x y.
Proof.
  unfold pd.key_ltb, pd.key_ge.
  destruct (by_ x) as [qx|], (by_ y) as [qy|]; try congruence.
  intros _ _. rewrite negb_false_iff. apply Qle_bool_iff.
Qed.

Lemma key_ge_trans (x y z : A) :
  by_ y <> NaN -> pd.key_ge by_ x y -> pd.key_ge by_ y z -> pd.key_ge by_ x z.
Proof.
  unfold pd.key_ge.
  destruct (by_ x) as [qx|], (by_ y) as [qy|], (by_ z) as [qz|];
    try tauto; try congruence.
  intros _ H1 H2. now apply Qle_trans with qy.
Qed.

Lemma insert_desc_sorted (x : A) (l : list A) :
  by_ x <> NaN -> Forall (fun a => by_ a <> NaN) l ->
  StronglySorted (pd.key_ge by_) l ->
  StronglySorted (pd.key_ge by_) (pd.insert_desc by_ x l).
Proof.
  intros Hx Hnum Hs. induction Hs as [|y l Hs IH Hall]; simpl.
  - constructor; constructor.
  - inversion Hnum as [|? ? Hy Hl]; subst.
    destruct (pd.key_ltb by_ x y) eqn:E.
    + constructor; [now apply IH|].
      apply (Permutation_Forall (insert_desc_perm x l)).
      constructor; trivial. now apply key_ltb_true.
    + assert (Hxy : pd.key_ge by_ x y) by now apply key_ltb_false.
      constructor; [now constructor|].
      constructor; trivial.
      eapply Forall_impl; [|exact Hall].
      intros z Hz. now apply key_ge_trans with y.
Qed.

Lemma fold_insert_desc_sorted (l : list A) :
  Forall (fun a => by_ a <> NaN) l ->
  StronglySorted (pd.key_ge by_) (fold_right (pd.insert_desc by_) [] l).
Proof.
  induction 1 as [|x l Hx Hl IH]; simpl; [constructor|].
  apply insert_desc_sorted; trivial.
  apply (Permutation_Forall (fold_insert_desc_perm l)). exact Hl.
Qed.

Lemma sorted_app_nan (l1 l2 : list A) :
  StronglySorted (pd.key_ge by_) l1 ->
  Forall (fun a => by_ a = NaN) l2 ->
  StronglySorted (pd.key_ge by_) (l1 ++ l2).
Proof.
  intros H1 H2.
  assert (Hge : forall x, Forall (pd.key_ge by_ x) l2).
  { intros x. eapply Forall_impl; [|exact H2].
    intros a Ha. unfold pd.key_ge. rewrite Ha. now destruct (by_ x). }
  induction H1 as [|x l1 Hs IH Hall]; simpl.
  - induction H2 as [|y l2 Hy Hl IH]; constructor.
    + apply IH. intros x. specialize (Hge x). now inversion Hge.
    + specialize (Hge y). now inversion Hge.
  - constructor; trivial. apply Forall_app. split; [exact Hall | apply Hge].
Qed.

(** The executable sort meets what pandas guarantees of [sort_values]. *)
Lemma sort_values_desc_meets_spec (l : list A) :
  pd.sort_values_desc_spec by_ l (pd.sort_values_desc by_ l).
Proof.
  split; [apply sort_values_desc_perm|].
  unfold pd.sort_values_desc. apply sorted_app_nan.
  - apply fold_insert_desc_sorted. apply Forall_forall.
    intros a Ha. apply filter_In in Ha. destruct Ha as (_ & Ha).
    destruct (by_ a); [discriminate | discriminate Ha].
  - apply Forall_forall. intros a Ha. apply filter_In in Ha.
    destruct Ha as (_ & Ha). destruct (by_ a); [discriminate Ha | reflexivity].
Qed.
End SortValuesFacts.

(** ** The platform ranking *)

Lemma string_key_eqb (a b : string) :
  pd.key_eqb String.compare a b = String.eqb a b.
Proof.
  apply eq_true_iff_eq.
  now rewrite (key_eqb_eq _ string_compare_eq), String.eqb_eq.
Qed.

Lemma platform_agg_platforms (df : DataFrame) :
  map Platform (platform_agg df) =
  pd.group_keys String.compare (map Platform_Terbanyak_Digunakan df).
Proof.
  unfold platform_agg. rewrite map_map.
  rewrite <- (groupby_keys String.compare Platform_Terbanyak_Digunakan df).
  apply map_ext. intros [p rows]. reflexivity.
Qed.

Lemma platform_usage_nonempty (df : DataFrame) (p : string) :
  In p (map Platform_Terbanyak_Digunakan df) -> platform_usage df p <> [].
Proof.
  rewrite in_map_iff. intros (r & <- & Hr) E.
  unfold platform_usage in E. apply map_eq_nil in E.
  assert (Hf : In r (filter (fun r0 =>
            String.eqb (Platform_Terbanyak_Digunakan r0)
                       (Platform_Terbanyak_Digunakan r)) df)).
  { apply filter_In. split; trivial. apply String.eqb_refl. }
  rewrite E in Hf. inversion Hf.
Qed.

Lemma platform_agg_In (df : DataFrame) (a : platform_row) :
  In a (platform_agg df) ->
  In (Platform a) (map Platform_Terbanyak_Digunakan df) /\
  Rata_Rata_Durasi a = pd.round 1 (pd.mean (platform_usage df (Platform a))) /\
  Jumlah_Pengguna a = pd.count (platform_usage df (Platform a)).
Proof.
  unfold platform_agg. rewrite in_map_iff.
  intros ([p rows] & <- & Hin). simpl.
  apply (groupby_In _ string_compare_eq) in Hin. destruct Hin as (Hk & ->).
  assert (E : filter (fun r => pd.key_eqb String.compare
                                 (Platform_Terbanyak_Digunakan r) p) df =
              filter (fun r => String.eqb (Platform_Terbanyak_Digunakan r) p) df).
  { apply filter_ext. intros r. apply string_key_eqb. }
  rewrite E. split; trivial. split; [reflexivity|].
  unfold pd.round_int, pd.count, platform_usage. now rewrite length_map.
Qed.

(** Every row of the ranking carries the mean of its platform rounded to
    one decimal, a multiple of 0.1, and the number of rows of the platform. *)
Lemma visualisasi_platform_row (df : DataFrame) (a : platform_row) :
  In a (visualisasi_platform df) ->
  exists m,
    pd.mean (platform_usage df (Platform a)) = Num m /\
    Rata_Rata_Durasi a = Num (np.round 1 m) /\
    np.round 1 m = inject_Z (np.rint (m * 10)) / 10 /\
    Jumlah_Pengguna a = pd.count (platform_usage df (Platform a)).
Proof.
  intros Ha. unfold visualisasi_platform in Ha.
  apply (Permutation_in _ (Permutation_sym (sort_values_desc_perm _ _))) in Ha.
  apply platform_agg_In in Ha. destruct Ha as (Hk & Hm & Hc).
  apply platform_usage_nonempty in Hk.
  rewrite (mean_num _ Hk) in Hm. rewrite (mean_num _ Hk).
  eexists. split; [reflexivity|]. split; [exact Hm|]. split; [reflexivity | exact Hc].
Qed.

Lemma visualisasi_platform_sorted (df : DataFrame) :
  StronglySorted (pd.key_ge Rata_Rata_Durasi) (visualisasi_platform df).
Proof. apply sort_values_desc_meets_spec. Qed.

Lemma visualisasi_platform_platforms (df : DataFrame) :
  NoDup (map Platform (visualisasi_platform df)) /\
  (forall p, In p (map Platform (visualisasi_platform df)) <->
             In p (map Platform_Terbanyak_Digunakan df)).
Proof.
  assert (HP : Permutation (map Platform (platform_agg df))
                           (map Platform (visualisasi_platform df))).
  { apply Permutation_map. apply sort_values_desc_perm. }
  split.
  - apply (Permutation_NoDup HP). rewrite platform_agg_platforms.
    apply (sorted_NoDup _ string_compare_eq).
    apply group_keys_sorted;
      [apply string_compare_eq | apply String.compare_antisym
       | apply string_compare_trans].
  - intros p.
    rewrite <- (group_keys_In _ string_compare_eq p
                  (map Platform_Terbanyak_Digunakan df)).
    rewrite <- platform_agg_platforms. split.
    + apply Permutation_in. now symmetry.
    + now apply Permutation_in.
Qed.

Lemma generated_platforms (df : DataFrame) :
  generated df -> incl (map Platform_Terbanyak_Digunakan df) platform_choices.
Proof.
  intros (rng & Hok & ->) p Hp.
  unfold load_and_clean_data in Hp. rewrite map_map in Hp.
  apply in_map_iff in Hp. destruct Hp as (i & <- & _).
  simpl. apply (Hok i).
Qed.

(** C5 (as amended): the ranking has one row per platform that occurs in
    the table, with the mean daily usage of the platform, rounded to one
    decimal, and the number of its rows, in descending order of that
    rounded mean.  On an unfiltered generated table this gives at most 5
    rows, and exactly 5 precisely when every platform occurs. *)
Theorem visualisasi_platform_ranking (df : DataFrame) :
  let out := visualisasi_platform df in
  NoDup (map Platform out) /\
  (forall p, In p (map Platform out) <->
             In p (map Platform_Terbanyak_Digunakan df)) /\
  (forall a, In a out ->
     exists m,
       pd.mean (platform_usage df (Platform a)) = Num m /\
       Rata_Rata_Durasi a = Num (np.round 1 m) /\
       Jumlah_Pengguna a = pd.count (platform_usage df (Platform a))) /\
  StronglySorted (pd.key_ge Rata_Rata_Durasi) out /\
  (generated df ->
   (List.length out <= 5)%nat /\
   (List.length out = 5%nat <->
    incl platform_choices (map Platform_Terbanyak_Digunakan df))).
Proof.
  intros out.
  destruct (visualisasi_platform_platforms df) as (Hnd & Hin). fold out in Hnd, Hin.
  split; [exact Hnd|]. split; [exact Hin|]. split; [|split].
  - intros a Ha. destruct (visualisasi_platform_row df a Ha) as (m & H1 & H2 & _ & H4).
    exists m. auto.
  - apply visualisasi_platform_sorted.
  - intros Hgen.
    assert (Hincl : incl (map Platform out) platform_choices).
    { intros p Hp. apply (generated_platforms df Hgen). now apply Hin. }
    assert (Hle : (List.length out <= 5)%nat).
    { rewrite <- (length_map Platform out).
      apply (NoDup_incl_length Hnd Hincl). }
    split; [exact Hle|]. split.
    + intros Hlen p Hp. apply Hin.
      assert (Hlen' : (List.length platform_choices <=
                       List.length (map Platform out))%nat).
      { rewrite length_map, Hlen. simpl. lia. }
      exact (NoDup_length_incl Hnd Hlen' Hincl p Hp).
    + intros Hall.
      assert (Hge : (5 <= List.length (map Platform out))%nat).
      { change 5%nat with (List.length platform_choices).
        apply NoDup_incl_length.
        - unfold platform_choices.
          repeat (constructor; [simpl; intuition discriminate|]). constructor.
        - intros p Hp. apply Hin. now apply Hall. }
      rewrite length_map in Hge. lia.
Qed.

(** ** Concrete tables *)

Lemma rng_cycle_ok (k : nat) (i : nat) :
  (0 < k <= 5)%nat -> draw_ok (rng_cycle k i).
Proof.
  intros Hk. unfold draw_ok, rng_cycle.
  cbn [choice_gender choice_pendidikan uniform_usage choice_platform].
  repeat split.
  - apply nth_In. apply Nat.mod_upper_bound. discriminate.
  - apply nth_In. apply Nat.mod_upper_bound. discriminate.
  - assert (H : 0 <= inject_Z (Z.of_nat (i mod 110))).
    { change 0 with (inject_Z 0). rewrite <- Zle_Qle. lia. }
    unfold Qdiv. change (/ 10) with (1 # 10). lra.
  - assert (H : inject_Z (Z.of_nat (i mod 110)) < 110).
    { change 110 with (inject_Z 110). rewrite <- Zlt_Qlt.
      pose proof (Nat.mod_upper_bound i 110). lia. }
    unfold Qdiv. change (/ 10) with (1 # 10). lra.
  - apply nth_In. change (List.length platform_choices) with 5%nat.
    pose proof (Nat.mod_upper_bound i k). lia.
Qed.

Lemma generated_df_all_platforms : generated df_all_platforms.
Proof.
  exists (rng_cycle 5). split; [|reflexivity].
  intros i. apply rng_cycle_ok. lia.
Qed.

Lemma generated_df_no_facebook : generated df_no_facebook.
Proof.
  exists (rng_cycle 4). split; [|reflexivity].
  intros i. apply rng_cycle_ok. lia.
Qed.

(** A generated table need not contain all five platforms: on the generated
    table without 'Facebook' the ranking has 4 rows, not 5.  And the order
    is that of the rounded means: on [df_tie] 'Instagram' is ranked before
    'TikTok' although its exact mean is the smaller one. *)
Lemma visualisasi_platform_not_always_five :
  (generated df_no_facebook /\
   List.length (visualisasi_platform df_no_facebook) = 4%nat /\
   List.length (visualisasi_platform df_no_facebook) <> 5%nat) /\
  (map Platform (visualisasi_platform df_tie) = ["Instagram"; "TikTok"]%string /\
   exists m1 m2,
     pd.mean (platform_usage df_tie "Instagram") = Num m1 /\
     pd.mean (platform_usage df_tie "TikTok") = Num m2 /\
     m1 < m2).
Proof.
  split.
  - split; [exact generated_df_no_facebook|].
    split; [vm_compute; reflexivity | vm_compute; discriminate].
  - split; [vm_compute; reflexivity|].
    do 2 eexists. split; [vm_compute; reflexivity|].
    split; [vm_compute; reflexivity|]. vm_compute; reflexivity.
Qed.

Lemma visualisasi_platform_ranking_witness :
  generated df_all_platforms /\
  (List.length (visualisasi_platform df_all_platforms) <= 5)%nat.
Proof.
  split; [exact generated_df_all_platforms|].
  exact (proj1 (proj2 (proj2 (proj2 (proj2
           (visualisasi_platform_ranking df_all_platforms))))
           generated_df_all_platforms)).
Defined.

(** C9: the ranking holds the per-platform mean rounded to one decimal (a
    multiple of 0.1) and the count, which the rounding leaves as it is; the
    rows are in descending order of the rounded mean.  The order does not
    follow the exact mean: on [df_tie] the two platforms have different
    exact means and the same rounded mean, the platform with the smaller
    exact mean comes first, and both orders of the two rows are sorted
    rearrangements that [sort_values] may return. *)
Theorem visualisasi_platform_sorts_rounded_mean :
  (forall df a, In a (visualisasi_platform df) ->
     exists m,
       pd.mean (platform_usage df (Platform a)) = Num m /\
       Rata_Rata_Durasi a = Num (np.round 1 m) /\
       np.round 1 m = inject_Z (np.rint (m * 10)) / 10 /\
       Qabs (np.round 1 m - m) <= 5 # 100 /\
       Jumlah_Pengguna a = pd.count (platform_usage df (Platform a))) /\
  (forall df, StronglySorted (pd.key_ge Rata_Rata_Durasi) (visualisasi_platform df)) /\
  (exists a b ma mb,
     visualisasi_platform df_tie = [a; b] /\
     pd.mean (platform_usage df_tie (Platform a)) = Num ma /\
     pd.mean (platform_usage df_tie (Platform b)) = Num mb /\
     ma < mb /\
     Rata_Rata_Durasi a = Rata_Rata_Durasi b /\
     pd.sort_values_desc_spec Rata_Rata_Durasi (platform_agg df_tie) [a; b] /\
     pd.sort_values_desc_spec Rata_Rata_Durasi (platform_agg df_tie) [b; a]).
Proof.
  split; [|split].
  - intros df a Ha.
    destruct (visualisasi_platform_row df a Ha) as (m & H1 & H2 & H3 & H4).
    exists m. repeat split; trivial.
    eapply Qle_trans; [apply np_round_error|].
    apply Qle_bool_iff. reflexivity.
  - apply visualisasi_platform_sorted.
  - do 4 eexists.
    split; [vm_compute; reflexivity|].
    split; [vm_compute; reflexivity|].
    split; [vm_compute; reflexivity|].
    split; [vm_compute; reflexivity|].
    split; [reflexivity|].
    assert (Hagg : platform_agg df_tie =
                   [ {| Platform := "Instagram"; Rata_Rata_Durasi := Num (50 # 10);
                        Jumlah_Pengguna := 3 |};
                     {| Platform := "TikTok"; Rata_Rata_Durasi := Num (50 # 10);
                        Jumlah_Pengguna := 3 |} ])
      by (vm_compute; reflexivity).
    rewrite Hagg. split; split.
    + reflexivity.
    + repeat constructor; unfold pd.key_ge; simpl; apply Qle_refl.
    + apply perm_swap.
    + repeat constructor; unfold pd.key_ge; simpl; apply Qle_refl.
Qed.

(** ** The correlation matrix *)

Lemma Qsquare_nonneg (a : Q) : 0 <= a * a.
Proof. nra. Qed.

Lemma sum_cons (x : Q) (xs : list Q) : pd.sum (x :: xs) = x + pd.sum xs.
Proof. reflexivity. Qed.

Lemma ssqdm_nonneg (xs : list Q) (m : Q) : 0 <= pd.ssqdm xs m.
Proof.
  unfold pd.ssqdm. induction xs as [|x xs IH].
  - apply Qle_refl.
  - rewrite map_cons, sum_cons. pose proof (Qsquare_nonneg (x - m)). lra.
Qed.

Lemma ssqdm_map (f : row -> Q) (df : DataFrame) (m : Q) :
  pd.ssqdm (map f df) m = pd.sum (map (fun r => (f r - m) * (f r - m)) df).
Proof. unfold pd.ssqdm. now rewrite map_map. Qed.

Lemma covxy_map (f g : row -> Q) (df : DataFrame) (mx my : Q) :
  pd.covxy (map (fun r => (f r, g r)) df) mx my =
  pd.sum (map (fun r => (f r - mx) * (g r - my)) df).
Proof. unfold pd.covxy. now rewrite map_map. Qed.

Lemma covxy_swap (f g : row -> Q) (df : DataFrame) (mx my : Q) :
  pd.covxy (map (fun r => (f r, g r)) df) mx my ==
  pd.covxy (map (fun r => (g r, f r)) df) my mx.
Proof.
  rewrite !covxy_map. induction df as [|r df IH].
  - reflexivity.
  - rewrite !map_cons, !sum_cons, IH. ring.
Qed.

Lemma Qeq_bool_comm_mult (a b : Q) : Qeq_bool (a * b) 0 = Qeq_bool (b * a) 0.
Proof.
  apply eq_true_iff_eq. rewrite !Qeq_bool_iff.
  split; intros H; rewrite <- H; ring.
Qed.

Lemma Q2R_zero : Q2R 0 = 0%R.
Proof. unfold Q2R. simpl. Lra.lra. Qed.

Lemma corr_entry_unfold (f g : row -> Q) (df : DataFrame) :
  corr_entry f g df =
  if (List.length df <? pd.minp)%nat then NaN
  else
    let n := inject_Z (Z.of_nat (List.length df)) in
    let ssx := pd.ssqdm (map f df) (pd.sum (map f df) / n) in
    let ssy := pd.ssqdm (map g df) (pd.sum (map g df) / n) in
    if Qeq_bool (ssx * ssy) 0 then NaN
    else Num (Q2R (pd.covxy (map (fun r => (f r, g r)) df)
                            (pd.sum (map f df) / n) (pd.sum (map g df) / n)) /
              sqrt (Q2R (ssx * ssy)))%R.
Proof.
  unfold corr_entry, pd.nancorr.
  rewrite !map_map, length_map. simpl. reflexivity.
Qed.

Lemma corr_entry_sym (f g : row -> Q) (df : DataFrame) :
  corr_entry f g df = corr_entry g f df.
Proof.
  rewrite !corr_entry_unfold.
  destruct (List.length df <? pd.minp)%nat; trivial. cbv zeta.
  rewrite Qeq_bool_comm_mult.
  destruct (Qeq_bool _ 0); trivial.
  f_equal. f_equal.
  - apply Qeq_eqR. apply covxy_swap.
  - f_equal. apply Qeq_eqR. ring.
Qed.

Lemma corr_entry_diag (f : row -> Q) (df : DataFrame) :
  (1 <= List.length df)%nat ->
  ~ pd.ssqdm (map f df)
      (pd.sum (map f df) / inject_Z (Z.of_nat (List.length df))) == 0 ->
  corr_entry f f df = Num 1%R.
Proof.
  intros Hlen Hss. rewrite corr_entry_unfold.
  assert (E : (List.length df <? pd.minp)%nat = false).
  { apply Nat.ltb_ge. exact Hlen. }
  rewrite E. cbv zeta.
  set (m := pd.sum (map f df) / inject_Z (Z.of_nat (List.length df))) in *.
  set (ss := pd.ssqdm (map f df) m) in *.
  assert (Hcov : pd.covxy (map (fun r => (f r, f r)) df) m m = ss).
  { unfold ss. now rewrite covxy_map, ssqdm_map. }
  rewrite Hcov.
  assert (H0 : 0 <= ss) by apply ssqdm_nonneg.
  assert (Hnz : Qeq_bool (ss * ss) 0 = false).
  { destruct (Qeq_bool (ss * ss) 0) eqn:Eb; trivial.
    apply Qeq_bool_iff in Eb. exfalso. apply Hss. nra. }
  rewrite Hnz. f_equal.
  assert (Hr : (0 <= Q2R ss)%R).
  { rewrite <- Q2R_zero. now apply Qle_Rle. }
  assert (Hn : (Q2R ss <> 0)%R).
  { intros Ez. apply Hss. apply eqR_Qeq. now rewrite Ez, Q2R_zero. }
  rewrite Q2R_mult, sqrt_square by exact Hr.
  now field.
Qed.

(** A column whose sum of squared deviations is 0 makes every entry of its
    row and of its column NaN: the divisor of the coefficient is 0. *)
Lemma corr_entry_nan_l (f g : row -> Q) (df : DataFrame) :
  pd.ssqdm (map f df)
    (pd.sum (map f df) / inject_Z (Z.of_nat (List.length df))) == 0 ->
  corr_entry f g df = NaN.
Proof.
  intros Hss. rewrite corr_entry_unfold.
  destruct (List.length df <? pd.minp)%nat; trivial. cbv zeta.
  assert (E : Qeq_bool
                (pd.ssqdm (map f df)
                   (pd.sum (map f df) / inject_Z (Z.of_nat (List.length df))) *
                 pd.ssqdm (map g df)
                   (pd.sum (map g df) / inject_Z (Z.of_nat (List.length df)))) 0
              = true).
  { apply Qeq_bool_iff. rewrite Hss. ring. }
  now rewrite E.
Qed.

Lemma corr_entry_nan_r (f g : row -> Q) (df : DataFrame) :
  pd.ssqdm (map g df)
    (pd.sum (map g df) / inject_Z (Z.of_nat (List.length df))) == 0 ->
  corr_entry f g df = NaN.
Proof. intros H. rewrite corr_entry_sym. now apply corr_entry_nan_l. Qed.

Lemma corr_entry_num (f g : row -> Q) (df : DataFrame) :
  (1 <= List.length df)%nat ->
  ~ pd.ssqdm (map f df)
      (pd.sum (map f df) / inject_Z (Z.of_nat (List.length df))) == 0 ->
  ~ pd.ssqdm (map g df)
      (pd.sum (map g df) / inject_Z (Z.of_nat (List.length df))) == 0 ->
  corr_entry f g df <> NaN.
Proof.
  intros Hlen Hx Hy. rewrite corr_entry_unfold.
  assert (E : (List.length df <? pd.minp)%nat = false).
  { apply Nat.ltb_ge. exact Hlen. }
  rewrite E. cbv zeta.
  match goal with |- context [Qeq_bool (?a * ?b) 0] =>
    assert (Hnz : Qeq_bool (a * b) 0 = false);
    [ destruct (Qeq_bool (a * b) 0) eqn:Eb; trivial;
      apply Qeq_bool_iff in Eb; exfalso;
      destruct (Qeq_dec a 0) as [Ea | Ea]; [now apply Hx|];
      apply Hy; apply (Qmult_integral a b) in Eb; tauto
    | rewrite Hnz; discriminate ]
  end.
Qed.

Lemma var_ssqdm (f : row -> Q) (df : DataFrame) :
  pd.var (map f df) == col_ssqdm f df / (inject_Z (Z.of_nat (List.length df)) - 1).
Proof. unfold pd.var, col_ssqdm. now rewrite length_map. Qed.

Lemma nonzero_var_ssqdm (f : row -> Q) (df : DataFrame) :
  ~ pd.var (map f df) == 0 -> ~ col_ssqdm f df == 0.
Proof.
  intros Hv Hs. apply Hv. rewrite var_ssqdm, Hs. unfold Qdiv. ring.
Qed.

Lemma zero_var_ssqdm (f : row -> Q) (df : DataFrame) :
  (2 <= List.length df)%nat -> pd.var (map f df) == 0 -> col_ssqdm f df == 0.
Proof.
  intros Hlen Hv. rewrite var_ssqdm in Hv.
  set (n := inject_Z (Z.of_nat (List.length df))) in *.
  assert (Hn : 2 <= n).
  { unfold n. change 2 with (inject_Z 2). rewrite <- Zle_Qle. lia. }
  assert (E : col_ssqdm f df == col_ssqdm f df / (n - 1) * (n - 1))
    by (field; lra).
  rewrite E, Hv. ring.
Qed.

Lemma short_table_ssqdm (f : row -> Q) (df : DataFrame) :
  (List.length df < 2)%nat -> col_ssqdm f df == 0.
Proof.
  destruct df as [|r [|r' df]]; simpl; intros H; [| |lia].
  - reflexivity.
  - unfold col_ssqdm, pd.ssqdm. cbn [map List.length].
    rewrite !sum_cons. change (pd.sum []) with 0.
    change (inject_Z (Z.of_nat 1)) with 1. field.
Qed.

Lemma iloc_visualisasi_korelasi (df : DataFrame) (i j : nat) :
  (i < 3)%nat -> (j < 3)%nat ->
  iloc (visualisasi_korelasi df) i j = corr_entry (rel_col i) (rel_col j) df.
Proof.
  intros Hi Hj.
  destruct i as [|[|[|i]]]; try lia;
    destruct j as [|[|[|j]]]; try lia; reflexivity.
Qed.

Lemma iloc_out_of_range (df : DataFrame) (i j : nat) :
  (3 <= i)%nat \/ (3 <= j)%nat -> iloc (visualisasi_korelasi df) i j = NaN.
Proof.
  intros H. unfold iloc. apply nth_overflow.
  destruct (lt_dec i 3) as [Hi | Hi].
  - destruct H as [H | H]; [lia|].
    destruct i as [|[|[|i]]]; try lia; exact H.
  - rewrite nth_overflow; [simpl; lia|].
    change (List.length (visualisasi_korelasi df)) with 3%nat. lia.
Qed.

Lemma iloc_sym (df : DataFrame) (i j : nat) :
  iloc (visualisasi_korelasi df) i j = iloc (visualisasi_korelasi df) j i.
Proof.
  destruct (lt_dec i 3) as [Hi | Hi]; destruct (lt_dec j 3) as [Hj | Hj].
  - rewrite !iloc_visualisasi_korelasi by assumption. apply corr_entry_sym.
  - rewrite !iloc_out_of_range by lia. reflexivity.
  - rewrite !iloc_out_of_range by lia. reflexivity.
  - rewrite !iloc_out_of_range by lia. reflexivity.
Qed.

Lemma rel_col_In (i : nat) : (i < 3)%nat -> In (rel_col i) rel_cols.
Proof. intros Hi. apply nth_In. exact Hi. Qed.

(** C6: for a table with at least 2 rows and nonzero variance in each of
    the three numeric columns, the correlation matrix is 3 by 3, symmetric,
    has 1 on its diagonal, and every entry is a number. *)
Theorem visualisasi_korelasi_symmetric_unit_diagonal (df : DataFrame) :
  (2 <= List.length df)%nat ->
  (forall c, In c rel_cols -> ~ pd.var (map c df) == 0) ->
  let m := visualisasi_korelasi df in
  (List.length m = 3%nat /\ Forall (fun l => List.length l = 3%nat) m) /\
  (forall i j, iloc m i j = iloc m j i) /\
  (forall i, (i < 3)%nat -> iloc m i i = Num 1%R) /\
  (forall i j, (i < 3)%nat -> (j < 3)%nat -> iloc m i j <> NaN).
Proof.
  intros Hlen Hvar m.
  assert (Hss : forall i, (i < 3)%nat -> ~ col_ssqdm (rel_col i) df == 0).
  { intros i Hi. apply nonzero_var_ssqdm. apply Hvar. now apply rel_col_In. }
  split; [|split; [|split]].
  - split; [reflexivity|]. repeat constructor.
  - intros i j. apply iloc_sym.
  - intros i Hi. unfold m. rewrite iloc_visualisasi_korelasi by assumption.
    apply corr_entry_diag; [lia|]. now apply Hss.
  - intros i j Hi Hj. unfold m. rewrite iloc_visualisasi_korelasi by assumption.
    apply corr_entry_num; [lia | now apply Hss | now apply Hss].
Qed.

Lemma visualisasi_korelasi_symmetric_unit_diagonal_witness :
  iloc (visualisasi_korelasi df_varied) 1 1 = Num 1%R /\
  iloc (visualisasi_korelasi df_varied) 0 2 = iloc (visualisasi_korelasi df_varied) 2 0.
Proof.
  assert (Hlen : (2 <= List.length df_varied)%nat) by (simpl; lia).
  assert (Hvar : forall c, In c rel_cols -> ~ pd.var (map c df_varied) == 0).
  { intros c [<- | [<- | [<- | []]]]; apply Qeq_bool_neq; vm_compute; reflexivity. }
  destruct (visualisasi_korelasi_symmetric_unit_diagonal df_varied Hlen Hvar)
    as (_ & Hsym & Hdiag & _).
  split; [apply Hdiag; lia | apply Hsym].
Defined.

(** C7: with fewer than 2 rows every entry of the correlation matrix is
    NaN, and a column of zero variance makes the entries of its row and of
    its column NaN; the matrix is still 3 by 3.  On the empty table the
    grouped mean and the platform ranking are empty tables and the
    correlation matrix is all NaN: each aggregation returns a result. *)
Theorem aggregations_tolerate_degenerate_tables :
  (forall df, (List.length df < 2)%nat ->
     forall i j, iloc (visualisasi_korelasi df) i j = NaN) /\
  (forall df i, (i < 3)%nat -> (2 <= List.length df)%nat ->
     pd.var (map (rel_col i) df) == 0 ->
     forall j, iloc (visualisasi_korelasi df) i j = NaN /\
               iloc (visualisasi_korelasi df) j i = NaN) /\
  (forall df, List.length (visualisasi_korelasi df) = 3%nat /\
     Forall (fun l => List.length l = 3%nat) (visualisasi_korelasi df)) /\
  visualisasi_korelasi [] =
    [[NaN; NaN; NaN]; [NaN; NaN; NaN]; [NaN; NaN; NaN]] /\
  visualisasi_demografi [] = [] /\
  visualisasi_platform [] = [].
Proof.
  assert (Hrow : forall df i, (i < 3)%nat -> col_ssqdm (rel_col i) df == 0 ->
            forall j, iloc (visualisasi_korelasi df) i j = NaN).
  { intros df i Hi Hss j. destruct (lt_dec j 3) as [Hj | Hj].
    - rewrite iloc_visualisasi_korelasi by assumption. now apply corr_entry_nan_l.
    - apply iloc_out_of_range. lia. }
  split; [|split; [|split; [|split; [|split]]]].
  - intros df Hlen i j. destruct (lt_dec i 3) as [Hi | Hi].
    + apply Hrow; trivial. now apply short_table_ssqdm.
    + apply iloc_out_of_range. lia.
  - intros df i Hi Hlen Hvar j.
    assert (Hss : col_ssqdm (rel_col i) df == 0) by now apply zero_var_ssqdm.
    split; [|rewrite iloc_sym]; now apply Hrow.
  - intros df. split; [reflexivity|]. repeat constructor.
  - reflexivity.
  - reflexivity.
  - reflexivity.
Qed.

(** ** The summary on the empty table, seen through the interface *)

(** On the empty table the three means are float values (nan), not the
    no-data marker [None] of the interface [float | None]. *)
Lemma main_metrik_empty_not_None :
  mean_object (avg_usage (main_metrik [])) = Float NaN /\
  mean_object (avg_sleep (main_metrik [])) = Float NaN /\
  mean_object (avg_health (main_metrik [])) = Float NaN /\
  mean_object (avg_usage (main_metrik [])) <> None_ /\
  mean_object (avg_sleep (main_metrik [])) <> None_ /\
  mean_object (avg_health (main_metrik [])) <> None_.
Proof. repeat split; discriminate. Qed.

(** ** The models at work on small inputs *)

Example rint_half_to_even :
  np.rint (5 # 2) = 2%Z /\ np.rint (7 # 2) = 4%Z /\ np.rint (-5 # 2) = (-2)%Z.
Proof. repeat split. Qed.

Example round_one_decimal :
  np.round 1 (1234 # 1000) == 12 # 10 /\ np.round 2 (149 # 30) == 497 # 100.
Proof. split; reflexivity. Qed.

Example astype_int_drops_fraction :
  np.astype_int (757 # 10) = 75%Z /\ np.astype_int (-757 # 10) = (-75)%Z.
Proof. split; reflexivity. Qed.

Example group_keys_sorts_and_merges :
  pd.group_keys String.compare ["TikTok"; "Facebook"; "TikTok"; "Instagram"]%string =
  ["Facebook"; "Instagram"; "TikTok"]%string.
Proof. reflexivity. Qed.

Example filtered_df_varied :
  map Platform_Terbanyak_Digunakan (filtered_df df_varied "Mahasiswa S1" "Semua") =
    ["TikTok"; "YouTube"]%string /\
  filtered_df df_varied "Mahasiswa S1" "Laki-laki" = [].
Proof. split; reflexivity. Qed.

Example visualisasi_demografi_varied :
  map agg_key (visualisasi_demografi df_varied) =
  [("Mahasiswa S1", "Perempuan"); ("Pelajar SMA", "Laki-laki")]%string.
Proof. reflexivity. Qed.

(** The test on the divisor of the coefficient: the square root of a
    non-negative rational is 0 exactly when the rational is. *)
Lemma divisor_zero_iff (v : Q) :
  0 <= v -> (sqrt (Q2R v) = 0%R <-> Qeq_bool v 0 = true).
Proof.
  intros Hv. rewrite Qeq_bool_iff.
  assert (Hr : (0 <= Q2R v)%R).
  { rewrite <- Q2R_zero. now apply Qle_Rle. }
  split.
  - intros E. apply sqrt_eq_0 in E; trivial.
    apply eqR_Qeq. now rewrite E, Q2R_zero.
  - intros E. apply Qeq_eqR in E. rewrite E, Q2R_zero. apply sqrt_0.
Qed.

Lemma filtered_df_exactly_matching_rows_witness :
  filtered_df df_varied "Doktor" "Semua" = [].
Proof.
  apply (proj1 (proj2 (proj2 (proj2
           (filtered_df_exactly_matching_rows df_varied "Doktor" "Semua"))))).
  - discriminate.
  - simpl. intuition discriminate.
Defined.

Lemma aggregations_tolerate_degenerate_tables_witness :
  iloc (visualisasi_korelasi df_tie) 1 0 = NaN /\
  iloc (visualisasi_korelasi df_tie) 0 1 = NaN.
Proof.
  apply (proj1 (proj2 aggregations_tolerate_degenerate_tables) df_tie 1%nat).
  - lia.
  - simpl. lia.
  - vm_compute. reflexivity.
Defined.

(** * Further properties of the pipeline *)

(** ** Monotonicity of the numeric primitives *)

Ltac Qcompare_prop H :=
  match type of H with
  | Qcompare _ _ = Eq => apply (proj2 (Qeq_alt _ _)) in H
  | Qcompare _ _ = Lt => apply (proj2 (Qlt_alt _ _)) in H
  | Qcompare _ _ = Gt => apply (proj2 (Qgt_alt _ _)) in H
  end.

Lemma rint_comp (q q' : Q) : q == q' -> np.rint q = np.rint q'.
Proof.
  intros E. unfold np.rint.
  rewrite (Qfloor_comp _ _ E).
  assert (Ec : Qcompare (q - inject_Z (Qfloor q')) (1 # 2) =
               Qcompare (q' - inject_Z (Qfloor q')) (1 # 2)).
  { apply Qcompare_comp; [now rewrite E | reflexivity]. }
  now rewrite Ec.
Qed.

Lemma rint_mono (q1 q2 : Q) : q1 <= q2 -> (np.rint q1 <= np.rint q2)%Z.
Proof.
  intros Hle.
  pose proof (Qfloor_resp_le _ _ Hle) as Hf.
  destruct (Z.eq_dec (Qfloor q1) (Qfloor q2)) as [E | NE].
  - unfold np.rint. rewrite E.
    destruct (Qcompare (q1 - inject_Z (Qfloor q2)) (1 # 2)) eqn:C1;
      destruct (Qcompare (q2 - inject_Z (Qfloor q2)) (1 # 2)) eqn:C2;
      try (destruct (Z.even (Qfloor q2))); try lia; exfalso;
      Qcompare_prop C1; Qcompare_prop C2; lra.
  - destruct (rint_floor_or_succ q1) as [-> | ->];
      destruct (rint_floor_or_succ q2) as [-> | ->]; lia.
Qed.

Lemma np_round_mono (d : nat) (q1 q2 : Q) :
  q1 <= q2 -> np.round d q1 <= np.round d q2.
Proof.
  intros Hle. unfold np.round.
  set (s := inject_Z (10 ^ Z.of_nat d)).
  assert (Hs : 0 < s) by apply pow10_pos.
  assert (Hr : (np.rint (q1 * s) <= np.rint (q2 * s))%Z).
  { apply rint_mono. nra. }
  rewrite Zle_Qle in Hr.
  apply Qle_shift_div_l; trivial.
  assert (E : inject_Z (np.rint (q1 * s)) / s * s == inject_Z (np.rint (q1 * s)))
    by (field; lra).
  now rewrite E.
Qed.

Lemma np_clip_mono (lo hi x y : Q) :
  x <= y -> np.clip lo hi x <= np.clip lo hi y.
Proof.
  intros Hxy. unfold np.clip.
  destruct (Qle_bool lo x) eqn:E1; destruct (Qle_bool lo y) eqn:E2;
    try apply Qle_bool_iff in E1; try apply Qle_bool_iff in E2;
    try (assert (Hx : x < lo)
           by (apply Qnot_le_lt; intros H; apply Qle_bool_iff in H; congruence));
    try (assert (Hy : y < lo)
           by (apply Qnot_le_lt; intros H; apply Qle_bool_iff in H; congruence));
    match goal with
    | |- (if Qle_bool ?a hi then _ else _) <= (if Qle_bool ?b hi then _ else _) =>
        destruct (Qle_bool a hi) eqn:E3; destruct (Qle_bool b hi) eqn:E4;
        try apply Qle_bool_iff in E3; try apply Qle_bool_iff in E4;
        try (assert (Ha : hi < a)
               by (apply Qnot_le_lt; intros H; apply Qle_bool_iff in H; congruence));
        try (assert (Hb : hi < b)
               by (apply Qnot_le_lt; intros H; apply Qle_bool_iff in H; congruence));
        lra
    end.
Qed.

Lemma astype_int_mono (q1 q2 : Q) :
  0 <= q1 -> q1 <= q2 -> (np.astype_int q1 <= np.astype_int q2)%Z.
Proof.
  intros H0 Hle.
  rewrite !astype_int_floor by lra.
  now apply Qfloor_resp_le.
Qed.

(** Clipping leaves a value inside the bounds alone and saturates outside. *)
Lemma np_clip_cases (lo hi x : Q) :
  lo <= hi ->
  (x <= lo -> np.clip lo hi x == lo) /\
  (hi <= x -> np.clip lo hi x == hi) /\
  (lo <= x -> x <= hi -> np.clip lo hi x = x).
Proof.
  intros Hlh. unfold np.clip. repeat split.
  - intros Hx. destruct (Qle_bool lo x) eqn:E1.
    + apply Qle_bool_iff in E1.
      assert (E : x == lo) by lra.
      destruct (Qle_bool x hi) eqn:E2; trivial.
      assert (H : Qle_bool x hi = true) by (apply Qle_bool_iff; lra). congruence.
    + assert (H : Qle_bool lo hi = true) by now apply Qle_bool_iff.
      now rewrite H.
  - intros Hx.
    assert (E1 : Qle_bool lo x = true) by (apply Qle_bool_iff; lra).
    rewrite E1. destruct (Qle_bool x hi) eqn:E2; [|reflexivity].
    apply Qle_bool_iff in E2. lra.
  - intros H1 H2.
    assert (E1 : Qle_bool lo x = true) by now apply Qle_bool_iff.
    assert (E2 : Qle_bool x hi = true) by now apply Qle_bool_iff.
    now rewrite E1, E2.
Qed.

Lemma np_round_inject_Z (d : nat) (z : Z) : np.round d (inject_Z z) == inject_Z z.
Proof.
  unfold np.round. set (s := (10 ^ Z.of_nat d)%Z).
  assert (Hs : 0 < inject_Z s) by apply pow10_pos.
  rewrite <- inject_Z_mult, rint_inject_Z, inject_Z_mult.
  field. lra.
Qed.

Lemma np_round_comp (d : nat) (q q' : Q) : q == q' -> np.round d q = np.round d q'.
Proof.
  intros E. unfold np.round. f_equal. f_equal. apply rint_comp. now rewrite E.
Qed.

(** ** The generator, continued *)

Lemma make_row_usage_tenths (d : draw) :
  1 <= uniform_usage d -> uniform_usage d < 12 ->
  exists k : Z, (10 <= k <= 120)%Z /\
                Durasi_Penggunaan_Harian (make_row d) == inject_Z k / 10.
Proof.
  intros H1 H2. exists (np.rint (uniform_usage d * 10)). split.
  - apply rint_bounds; unfold inject_Z; lra.
  - reflexivity.
Qed.

Lemma make_row_sleep_tenths (d : draw) :
  exists k : Z, (30 <= k <= 100)%Z /\ Durasi_Tidur (make_row d) == inject_Z k / 10.
Proof.
  unfold make_row; cbn [Durasi_Tidur].
  set (x := base_sleep d - _).
  destruct (np_clip_bounds 3 10 x) as [H1 H2]; [lra|].
  exists (np.rint (np.clip 3 10 x * 10)). split.
  - apply rint_bounds; unfold inject_Z; lra.
  - reflexivity.
Qed.

(** X1: a generated table has exactly 300 rows, and in every row the
    gender, the education level and the platform are among the listed
    choices, the daily usage is a multiple of 0.1 in [1, 12] and the sleep
    duration a multiple of 0.1 in [3, 10]. *)
Theorem generated_table_well_formed (df : DataFrame) :
  generated df ->
  List.length df = 300%nat /\
  Forall (fun r =>
            In (Jenis_Kelamin r) gender_choices /\
            In (Tingkat_Pendidikan r) pendidikan_choices /\
            In (Platform_Terbanyak_Digunakan r) platform_choices /\
            (exists k : Z, (10 <= k <= 120)%Z /\
                           Durasi_Penggunaan_Harian r == inject_Z k / 10) /\
            (exists k : Z, (30 <= k <= 100)%Z /\
                           Durasi_Tidur r == inject_Z k / 10)) df.
Proof.
  intros (rng & Hok & ->). split; [apply load_and_clean_data_length|].
  apply Forall_forall. intros r Hr.
  unfold load_and_clean_data in Hr. apply in_map_iff in Hr.
  destruct Hr as (i & <- & _).
  destruct (Hok i) as (Hg & He & [Hu1 Hu2] & Hp).
  split; [exact Hg|]. split; [exact He|]. split; [exact Hp|].
  split; [now apply make_row_usage_tenths | apply make_row_sleep_tenths].
Qed.

Lemma generated_table_well_formed_witness :
  List.length df_all_platforms = 300%nat.
Proof.
  exact (proj1 (generated_table_well_formed df_all_platforms
                  generated_df_all_platforms)).
Defined.

(** X2: with the same noise draws, a respondent with more daily usage gets
    no more sleep and no higher mental health score. *)
Theorem more_usage_less_sleep_and_health (d1 d2 : draw) :
  base_sleep d1 = base_sleep d2 ->
  base_mental_health d1 = base_mental_health d2 ->
  uniform_usage d1 <= uniform_usage d2 ->
  Durasi_Penggunaan_Harian (make_row d1) <= Durasi_Penggunaan_Harian (make_row d2) /\
  Durasi_Tidur (make_row d2) <= Durasi_Tidur (make_row d1) /\
  (Skor_Kesehatan_Mental (make_row d2) <= Skor_Kesehatan_Mental (make_row d1))%Z.
Proof.
  intros Es Eh Hu.
  assert (Hr : np.round 1 (uniform_usage d1) <= np.round 1 (uniform_usage d2))
    by now apply np_round_mono.
  unfold make_row;
    cbn [Durasi_Penggunaan_Harian Durasi_Tidur Skor_Kesehatan_Mental].
  rewrite Es, Eh. split; [exact Hr|]. split.
  - apply np_round_mono, np_clip_mono. lra.
  - apply astype_int_mono.
    + match goal with |- _ <= np.clip 10 100 ?x =>
        destruct (np_clip_bounds 10 100 x); lra end.
    + apply np_clip_mono. lra.
Qed.

Lemma more_usage_less_sleep_and_health_witness :
  Durasi_Tidur (responden "TikTok" 9) <= Durasi_Tidur (responden "TikTok" 2).
Proof.
  apply (more_usage_less_sleep_and_health
           {| choice_gender := "Perempuan"; choice_pendidikan := "Mahasiswa S1";
              uniform_usage := 2; choice_platform := "TikTok";
              base_sleep := 15 # 2; base_mental_health := 75 |}
           {| choice_gender := "Perempuan"; choice_pendidikan := "Mahasiswa S1";
              uniform_usage := 9; choice_platform := "TikTok";
              base_sleep := 15 # 2; base_mental_health := 75 |}).
  - reflexivity.
  - reflexivity.
  - simpl. lra.
Defined.

Lemma astype_int_of_int (q : Q) (z : Z) :
  (0 <= z)%Z -> q == inject_Z z -> np.astype_int q = z.
Proof.
  intros Hz E. rewrite astype_int_floor.
  - rewrite (Qfloor_comp _ _ E). apply Qfloor_Z.
  - rewrite E. change 0 with (inject_Z 0). now rewrite <- Zle_Qle.
Qed.

(** X3: the clamps saturate.  When the noise minus the usage term reaches
    or exceeds a bound, the row holds exactly that bound: sleep 10 or 3,
    score 100 or 10. *)
Theorem make_row_saturates (d : draw) :
  let usage := Durasi_Penggunaan_Harian (make_row d) in
  (10 <= base_sleep d - usage * (2 # 10) -> Durasi_Tidur (make_row d) == 10) /\
  (base_sleep d - usage * (2 # 10) <= 3 -> Durasi_Tidur (make_row d) == 3) /\
  (100 <= base_mental_health d - usage * (25 # 10) ->
   Skor_Kesehatan_Mental (make_row d) = 100%Z) /\
  (base_mental_health d - usage * (25 # 10) <= 10 ->
   Skor_Kesehatan_Mental (make_row d) = 10%Z).
Proof.
  unfold make_row;
    cbn [Durasi_Penggunaan_Harian Durasi_Tidur Skor_Kesehatan_Mental].
  set (xs := base_sleep d - _). set (xh := base_mental_health d - _).
  destruct (np_clip_cases 3 10 xs) as (Hs1 & Hs2 & _); [lra|].
  destruct (np_clip_cases 10 100 xh) as (Hh1 & Hh2 & _); [lra|].
  repeat split; intros H.
  - rewrite (np_round_comp 1 _ (inject_Z 10)) by (now apply Hs2).
    apply np_round_inject_Z.
  - rewrite (np_round_comp 1 _ (inject_Z 3)) by (now apply Hs1).
    apply np_round_inject_Z.
  - apply astype_int_of_int; [lia | now apply Hh2].
  - apply astype_int_of_int; [lia | now apply Hh1].
Qed.

Lemma make_row_saturates_witness :
  Skor_Kesehatan_Mental
    (make_row {| choice_gender := "Perempuan"; choice_pendidikan := "Mahasiswa S1";
                 uniform_usage := 12 - (1 # 100); choice_platform := "TikTok";
                 base_sleep := 5; base_mental_health := 40 |}) = 10%Z.
Proof.
  apply (proj2 (proj2 (proj2 (make_row_saturates _)))).
  vm_compute. discriminate.
Defined.

(** ** The filters, continued *)

Lemma selects_Semua (field : string) : selects Semua field = true.
Proof. reflexivity. Qed.

Lemma filter_length_eq {A} (f : A -> bool) (l : list A) :
  List.length (filter f l) = List.length l -> filter f l = l.
Proof.
  induction l as [|a l IH]; simpl; trivial.
  destruct (f a); simpl; intros H.
  - f_equal. apply IH. lia.
  - pose proof (filter_length_le f l). lia.
Qed.

Lemma filter_eqb_count_occ (x : string) (l : list string) :
  List.length (filter (fun y => String.eqb y x) l) = count_occ string_dec l x.
Proof.
  induction l as [|a l IH]; simpl; trivial.
  destruct (string_dec a x) as [E | NE].
  - apply String.eqb_eq in E. rewrite E. simpl. now rewrite IH.
  - apply String.eqb_neq in NE. now rewrite NE.
Qed.

Lemma filter_map_length {A B} (g : A -> B) (f : B -> bool) (l : list A) :
  List.length (filter (fun a => f (g a)) l) = List.length (filter f (map g l)).
Proof.
  induction l as [|a l IH]; simpl; trivial.
  destruct (f (g a)); simpl; now rewrite IH.
Qed.

(** X4: filtering is idempotent, and the two selectors can be applied one
    after the other in either order with the same result as together. *)
Theorem filtered_df_idempotent_and_composes (df : DataFrame) (sp sg : string) :
  filtered_df (filtered_df df sp sg) sp sg = filtered_df df sp sg /\
  filtered_df (filtered_df df sp Semua) Semua sg = filtered_df df sp sg /\
  filtered_df (filtered_df df Semua sg) sp Semua = filtered_df df sp sg.
Proof.
  rewrite !filtered_df_filter, !filter_filter. repeat split;
    apply filter_ext; intros r; unfold satisfies;
    rewrite ?selects_Semua, ?andb_true_r; simpl;
    destruct (selects sp (Tingkat_Pendidikan r));
    destruct (selects sg (Jenis_Kelamin r)); reflexivity.
Qed.

(** X5: the sidebar note never reports more rows than the table has, it
    reports all of them only when the filter removed nothing, and with one
    selector set to a literal it reports the number of rows whose column
    holds that literal. *)
Theorem sidebar_info_counts (df : DataFrame) (sp sg : string) :
  (fst (sidebar_info df (filtered_df df sp sg)) <=
   snd (sidebar_info df (filtered_df df sp sg)))%nat /\
  (fst (sidebar_info df (filtered_df df sp sg)) =
   snd (sidebar_info df (filtered_df df sp sg)) <-> filtered_df df sp sg = df) /\
  (sp <> Semua ->
   fst (sidebar_info df (filtered_df df sp Semua)) =
   count_occ string_dec (map Tingkat_Pendidikan df) sp) /\
  (sg <> Semua ->
   fst (sidebar_info df (filtered_df df Semua sg)) =
   count_occ string_dec (map Jenis_Kelamin df) sg).
Proof.
  unfold sidebar_info; cbn [fst snd]. split; [|split; [|split]].
  - rewrite filtered_df_filter. apply filter_length_le.
  - rewrite filtered_df_filter. split.
    + apply filter_length_eq.
    + intros E. now rewrite E.
  - intros Hsp. apply String.eqb_neq in Hsp.
    unfold filtered_df. rewrite Hsp. simpl.
    rewrite <- filter_eqb_count_occ.
    apply (filter_map_length Tingkat_Pendidikan (fun y => String.eqb y sp)).
  - intros Hsg. apply String.eqb_neq in Hsg.
    unfold filtered_df. rewrite Hsg. simpl.
    rewrite <- filter_eqb_count_occ.
    apply (filter_map_length Jenis_Kelamin (fun y => String.eqb y sg)).
Qed.

Lemma sidebar_info_counts_witness :
  fst (sidebar_info df_varied (filtered_df df_varied "Mahasiswa S1" Semua)) =
  count_occ string_dec (map Tingkat_Pendidikan df_varied) "Mahasiswa S1"%string.
Proof.
  apply (proj1 (proj2 (proj2
           (sidebar_info_counts df_varied "Mahasiswa S1" Semua)))).
  discriminate.
Defined.

(** ** The select boxes *)

Lemma unique_In (x : string) (l : list string) : In x (unique l) <-> In x l.
Proof.
  induction l as [|a l IH]; simpl; [tauto|].
  rewrite filter_In, IH, negb_true_iff, String.eqb_neq.
  destruct (string_dec a x) as [E | NE]; [tauto|].
  split; [tauto|]. intros [E | H]; [tauto|]. right. split; congruence.
Qed.

Lemma unique_NoDup (l : list string) : NoDup (unique l).
Proof.
  induction l as [|a l IH]; simpl; constructor.
  - rewrite filter_In, String.eqb_refl. simpl. intros [_ H]. discriminate.
  - now apply NoDup_filter.
Qed.

Lemma filter_one_column_nonempty (df : DataFrame) (col : row -> string) (v : string) :
  In v (map col df) -> filter (fun r => String.eqb (col r) v) df <> [].
Proof.
  rewrite in_map_iff. intros (r & <- & Hr) E.
  assert (Hf : In r (filter (fun r0 => String.eqb (col r0) (col r)) df)).
  { apply filter_In. split; trivial. apply String.eqb_refl. }
  rewrite E in Hf. inversion Hf.
Qed.

Lemma filtered_df_one_selector (df : DataFrame) (v : string) :
  v <> Semua ->
  filtered_df df v Semua =
    filter (fun r => String.eqb (Tingkat_Pendidikan r) v) df /\
  filtered_df df Semua v =
    filter (fun r => String.eqb (Jenis_Kelamin r) v) df.
Proof.
  intros Hv. apply String.eqb_neq in Hv. unfold filtered_df.
  rewrite Hv. split; reflexivity.
Qed.

(** X6: each select box lists the wildcard followed by the distinct values
    of its column in order of first appearance, without repetition among
    the values; on a non-empty table every entry of a box, chosen on its
    own, selects at least one row.  Two entries chosen together can still
    select nothing: on the generated table [df_paired] both 'Mahasiswa S1'
    and 'Laki-laki' are offered and no row has both. *)
Theorem sidebar_options_select_rows :
  (forall df,
      NoDup (unique (map Tingkat_Pendidikan df)) /\
      NoDup (unique (map Jenis_Kelamin df)) /\
      (forall v, In v (pendidikan_options df) <->
                 v = Semua \/ In v (map Tingkat_Pendidikan df)) /\
      (forall v, In v (gender_options df) <->
                 v = Semua \/ In v (map Jenis_Kelamin df))) /\
  (forall df v, df <> [] -> In v (pendidikan_options df) ->
                filtered_df df v Semua <> []) /\
  (forall df v, df <> [] -> In v (gender_options df) ->
                filtered_df df Semua v <> []) /\
  (generated df_paired /\
   In "Mahasiswa S1"%string (pendidikan_options df_paired) /\
   In "Laki-laki"%string (gender_options df_paired) /\
   filtered_df df_paired "Mahasiswa S1" "Laki-laki" = []).
Proof.
  split; [|split; [|split]].
  - intros df. split; [apply unique_NoDup|]. split; [apply unique_NoDup|].
    unfold pendidikan_options, gender_options. split; intros v; simpl;
      rewrite unique_In; intuition.
  - intros df v Hne Hv. unfold pendidikan_options in Hv. simpl in Hv.
    destruct (string_dec v Semua) as [-> | Hs]; [exact Hne|].
    destruct Hv as [E | Hv]; [congruence|].
    rewrite (proj1 (filtered_df_one_selector df v Hs)).
    exact (filter_one_column_nonempty df Tingkat_Pendidikan v
             (proj1 (unique_In _ _) Hv)).
  - intros df v Hne Hv. unfold gender_options in Hv. simpl in Hv.
    destruct (string_dec v Semua) as [-> | Hs]; [exact Hne|].
    destruct Hv as [E | Hv]; [congruence|].
    rewrite (proj2 (filtered_df_one_selector df v Hs)).
    exact (filter_one_column_nonempty df Jenis_Kelamin v
             (proj1 (unique_In _ _) Hv)).
  - split.
    + exists rng_paired. split; [|reflexivity].
      intros i. unfold draw_ok, rng_paired.
      cbn [choice_gender choice_pendidikan uniform_usage choice_platform].
      pose proof (rng_cycle_ok 5 i) as H. unfold draw_ok, rng_cycle in H.
      cbn [choice_gender choice_pendidikan uniform_usage choice_platform] in H.
      destruct H as (Hg & _ & Hu & Hp); [lia|].
      split; [exact Hg|]. split; [|split; [exact Hu | exact Hp]].
      apply nth_In. change (List.length pendidikan_choices) with 3%nat.
      pose proof (Nat.mod_upper_bound i 2). lia.
    + split; [vm_compute; tauto|]. split; [vm_compute; tauto|].
      vm_compute. reflexivity.
Qed.

Lemma sidebar_options_select_rows_witness :
  filtered_df df_varied "Pelajar SMA" Semua <> [].
Proof.
  apply (proj1 (proj2 sidebar_options_select_rows)).
  - discriminate.
  - vm_compute. tauto.
Defined.

(** ** Means stay between the bounds of the values *)

Lemma count_cons {A} (x : A) (xs : list A) :
  inject_Z (pd.count (x :: xs)) == inject_Z (pd.count xs) + 1.
Proof.
  unfold pd.count. cbn [List.length].
  rewrite Nat2Z.inj_succ, <- Z.add_1_r, inject_Z_plus. reflexivity.
Qed.

Lemma count_nonneg {A} (xs : list A) : 0 <= inject_Z (pd.count xs).
Proof.
  change 0 with (inject_Z 0). rewrite <- Zle_Qle. unfold pd.count. lia.
Qed.

Lemma sum_bounds (lo hi : Q) (xs : list Q) :
  Forall (fun x => lo <= x /\ x <= hi) xs ->
  lo * inject_Z (pd.count xs) <= pd.sum xs /\
  pd.sum xs <= hi * inject_Z (pd.count xs).
Proof.
  induction 1 as [|x xs [H1 H2] Hall [IH1 IH2]].
  - change (pd.sum []) with 0. change (inject_Z (pd.count (@nil Q))) with 0.
    split; lra.
  - rewrite sum_cons, count_cons. split; lra.
Qed.

Lemma mean_bounds (lo hi : Q) (xs : list Q) :
  xs <> [] ->
  Forall (fun x => lo <= x /\ x <= hi) xs ->
  exists m, pd.mean xs = Num m /\ lo <= m /\ m <= hi.
Proof.
  intros Hne Hall. rewrite (mean_num _ Hne). eexists. split; [reflexivity|].
  destruct (sum_bounds lo hi xs Hall) as [H1 H2].
  assert (Hn : 0 < inject_Z (pd.count xs)).
  { destruct xs as [|x xs]; [congruence|].
    rewrite count_cons. pose proof (count_nonneg xs). lra. }
  split.
  - apply Qle_shift_div_l; trivial.
  - apply Qle_shift_div_r; trivial.
Qed.

Lemma Forall_map_filter {A} (P : Q -> Prop) (g : A -> Q) (f : A -> bool) (l : list A) :
  Forall (fun a => P (g a)) l -> Forall P (map g (filter f l)).
Proof.
  intros H. apply Forall_forall. intros x Hx.
  apply in_map_iff in Hx. destruct Hx as (a & <- & Ha).
  apply filter_In in Ha. rewrite Forall_forall in H. now apply H.
Qed.

(** The bounds that every row of a generated table meets. *)
Lemma generated_row_bounds (df : DataFrame) :
  generated df ->
  Forall (fun r =>
            (1 <= Durasi_Penggunaan_Harian r /\ Durasi_Penggunaan_Harian r <= 12) /\
            (3 <= Durasi_Tidur r /\ Durasi_Tidur r <= 10) /\
            (10 <= skor_float r /\ skor_float r <= 100)) df.
Proof.
  intros (rng & Hok & ->). apply Forall_forall. intros r Hr.
  unfold load_and_clean_data in Hr. apply in_map_iff in Hr.
  destruct Hr as (i & <- & _).
  split; [now apply make_row_usage_bounds|].
  split; [apply make_row_sleep_bounds|].
  pose proof (make_row_skor_bounds (rng i)) as [H1 H2].
  unfold skor_float. rewrite Zle_Qle in H1, H2. split; assumption.
Qed.

(** X7: whatever the two selectors are, when the filtered view of a
    generated table has at least one row the three averages on the metric
    cards are numbers within the ranges of their columns: usage in
    [1, 12], sleep in [3, 10], mental health score in [10, 100]. *)
Theorem main_metrik_within_ranges (df : DataFrame) (sp sg : string) :
  generated df ->
  filtered_df df sp sg <> [] ->
  num_between 1 12 (avg_usage (main_metrik (filtered_df df sp sg))) /\
  num_between 3 10 (avg_sleep (main_metrik (filtered_df df sp sg))) /\
  num_between 10 100 (avg_health (main_metrik (filtered_df df sp sg))).
Proof.
  intros Hgen Hne. pose proof (generated_row_bounds df Hgen) as Hb.
  rewrite filtered_df_filter in *.
  set (f := satisfies sp sg) in *.
  assert (Hmap : forall g : row -> Q, map g (filter f df) <> []).
  { intros g E. apply map_eq_nil in E. contradiction. }
  unfold main_metrik; cbn [avg_usage avg_sleep avg_health].
  split; [|split].
  - destruct (mean_bounds 1 12 (map Durasi_Penggunaan_Harian (filter f df)))
      as (m & -> & Hm); [apply Hmap | | exact Hm].
    apply (Forall_map_filter (fun x => 1 <= x /\ x <= 12)).
    eapply Forall_impl; [|exact Hb]. intros r Hr. apply Hr.
  - destruct (mean_bounds 3 10 (map Durasi_Tidur (filter f df)))
      as (m & -> & Hm); [apply Hmap | | exact Hm].
    apply (Forall_map_filter (fun x => 3 <= x /\ x <= 10)).
    eapply Forall_impl; [|exact Hb]. intros r Hr. apply Hr.
  - destruct (mean_bounds 10 100 (map skor_float (filter f df)))
      as (m & -> & Hm); [apply Hmap | | exact Hm].
    apply (Forall_map_filter (fun x => 10 <= x /\ x <= 100)).
    eapply Forall_impl; [|exact Hb]. intros r Hr. apply Hr.
Qed.

Lemma main_metrik_within_ranges_witness :
  num_between 1 12
    (avg_usage (main_metrik (filtered_df df_all_platforms "Mahasiswa S1" Semua))).
Proof.
  apply (main_metrik_within_ranges df_all_platforms "Mahasiswa S1" Semua).
  - exact generated_df_all_platforms.
  - vm_compute. discriminate.
Defined.

(** ** Groups partition the table *)

Section GroupByPartition.
Context {K : Type} (cmp : K -> K -> comparison).
Hypothesis cmp_eq : forall a b, cmp a b = Eq <-> a = b.
Hypothesis cmp_antisym : forall a b, cmp a b = CompOpp (cmp b a).
Hypothesis cmp_trans : forall a b c, cmp a b = Lt -> cmp b c = Lt -> cmp a c = Lt.
Context {A : Type} (key : A -> K).

Lemma group_sizes_nil (ks : list K) : group_sizes cmp key ks [] = 0%nat.
Proof. unfold group_sizes. induction ks as [|k ks IH]; simpl; trivial. Qed.

Lemma group_sizes_key (k : K) (ks : list K) (l : list A) :
  group_sizes cmp key (k :: ks) l =
  (List.length (filter (fun r => pd.key_eqb cmp (key r) k) l) + group_sizes cmp key ks l)%nat.
Proof. reflexivity. Qed.

Lemma group_sizes_cons_out (ks : list K) (x : A) (l : list A) :
  ~ In (key x) ks -> group_sizes cmp key ks (x :: l) = group_sizes cmp key ks l.
Proof.
  induction ks as [|k ks IH]; intros Hn; [reflexivity|].
  rewrite !group_sizes_key. cbn [filter].
  destruct (pd.key_eqb cmp (key x) k) eqn:E.
  - apply (key_eqb_eq _ cmp_eq) in E. exfalso. apply Hn. now left.
  - rewrite IH; [reflexivity|]. intros H. apply Hn. now right.
Qed.

Lemma group_sizes_cons_in (ks : list K) (x : A) (l : list A) :
  NoDup ks -> In (key x) ks -> group_sizes cmp key ks (x :: l) = S (group_sizes cmp key ks l).
Proof.
  induction 1 as [|k ks Hk Hnd IH]; intros Hin; [inversion Hin|].
  rewrite !group_sizes_key.
  cbn [filter]. destruct (pd.key_eqb cmp (key x) k) eqn:E.
  - apply (key_eqb_eq _ cmp_eq) in E. subst k.
    rewrite group_sizes_cons_out by exact Hk. simpl. lia.
  - destruct Hin as [E' | Hin].
    + subst k. assert (Ht : pd.key_eqb cmp (key x) (key x) = true)
        by now apply (key_eqb_eq _ cmp_eq).
      congruence.
    + rewrite IH by exact Hin. lia.
Qed.

Lemma group_sizes_total (ks : list K) (l : list A) :
  NoDup ks -> (forall r, In r l -> In (key r) ks) ->
  group_sizes cmp key ks l = List.length l.
Proof.
  intros Hnd. induction l as [|x l IH]; intros Hall.
  - apply group_sizes_nil.
  - rewrite group_sizes_cons_in; trivial.
    + simpl. f_equal. apply IH. intros r Hr. apply Hall. now right.
    + apply Hall. now left.
Qed.

(** The groups of [groupby] have as many rows together as the table. *)
Lemma groupby_sizes (df : list A) :
  fold_right Nat.add 0%nat (map (fun g => List.length (snd g)) (pd.groupby cmp key df))
  = List.length df.
Proof.
  unfold pd.groupby. rewrite map_map. cbn [snd].
  apply (group_sizes_total (pd.group_keys cmp (map key df)) df).
  - apply (sorted_NoDup _ cmp_eq). now apply group_keys_sorted.
  - intros r Hr. apply (group_keys_In _ cmp_eq). now apply in_map.
Qed.

Lemma insert_key_length (k : K) (ks : list K) :
  (List.length (pd.insert_key cmp k ks) <= S (List.length ks))%nat.
Proof.
  induction ks as [|k' ks IH]; simpl; [lia|].
  destruct (cmp k k'); simpl; lia.
Qed.

Lemma group_keys_length (ks : list K) :
  (List.length (pd.group_keys cmp ks) <= List.length ks)%nat.
Proof.
  induction ks as [|k ks IH]; simpl; [lia|].
  pose proof (insert_key_length k (pd.group_keys cmp ks)). lia.
Qed.

Lemma group_keys_nil_iff (ks : list K) : pd.group_keys cmp ks = [] <-> ks = [].
Proof.
  split; [|intros ->; reflexivity].
  destruct ks as [|k ks]; trivial. intros E. exfalso.
  assert (H : In k (pd.group_keys cmp (k :: ks)))
    by (apply (group_keys_In _ cmp_eq); now left).
  rewrite E in H. inversion H.
Qed.
End GroupByPartition.

(** ** The grouped mean, continued *)

Lemma filtered_generated_rows (df : DataFrame) (sp sg : string) :
  generated df ->
  Forall (fun r =>
            In (Jenis_Kelamin r) gender_choices /\
            In (Tingkat_Pendidikan r) pendidikan_choices /\
            In (Platform_Terbanyak_Digunakan r) platform_choices /\
            1 <= Durasi_Penggunaan_Harian r /\ Durasi_Penggunaan_Harian r <= 12)
         (filtered_df df sp sg).
Proof.
  intros (rng & Hok & ->). apply Forall_forall. intros r Hr.
  apply filtered_df_exactly_matching_rows_aux in Hr. destruct Hr as (Hr & _).
  unfold load_and_clean_data in Hr. apply in_map_iff in Hr.
  destruct Hr as (i & <- & _).
  destruct (Hok i) as (Hg & He & _ & Hp).
  split; [exact Hg|]. split; [exact He|]. split; [exact Hp|].
  now apply make_row_usage_bounds.
Qed.

Lemma round_mean_between (d : nat) (a b : Z) (xs : list Q) :
  xs <> [] ->
  Forall (fun x => inject_Z a <= x /\ x <= inject_Z b) xs ->
  num_between (inject_Z a) (inject_Z b) (pd.round d (pd.mean xs)).
Proof.
  intros Hne Hall.
  destruct (mean_bounds _ _ xs Hne Hall) as (m & -> & H1 & H2).
  apply np_round_bounds; assumption.
Qed.

(** X8: on any filtered view of a generated table the grouped bar chart has
    at most 6 bars (3 education levels times 2 genders), each for a listed
    level and gender, and every bar is a number in [1, 12]. *)
Theorem visualisasi_demografi_generated (df : DataFrame) (sp sg : string) :
  generated df ->
  let out := visualisasi_demografi (filtered_df df sp sg) in
  (List.length out <= 6)%nat /\
  Forall (fun a =>
            In (agg_pendidikan a) pendidikan_choices /\
            In (agg_gender a) gender_choices /\
            num_between 1 12 (agg_durasi a)) out.
Proof.
  intros Hgen out. pose proof (filtered_generated_rows df sp sg Hgen) as Hrows.
  set (fd := filtered_df df sp sg) in *.
  assert (Hkey : forall a, In a out ->
            In (agg_key a) (map demografi_key fd)).
  { intros a Ha. now apply visualisasi_demografi_In in Ha. }
  assert (Hch : forall a, In a out ->
            In (agg_pendidikan a) pendidikan_choices /\
            In (agg_gender a) gender_choices).
  { intros a Ha. specialize (Hkey a Ha). unfold agg_key in Hkey.
    apply in_demografi_keys in Hkey. destruct Hkey as (r & Hr & <- & <-).
    rewrite Forall_forall in Hrows. destruct (Hrows r Hr) as (Hg & He & _).
    auto. }
  split.
  - rewrite <- (length_map agg_key out).
    change 6%nat with (List.length (list_prod pendidikan_choices gender_choices)).
    apply NoDup_incl_length.
    + unfold out. rewrite visualisasi_demografi_keys.
      apply (sorted_NoDup _ pair_compare_eq).
      apply group_keys_sorted;
        [apply pair_compare_eq | apply pair_compare_antisym | apply pair_compare_trans].
    + intros k Hk. apply in_map_iff in Hk. destruct Hk as (a & <- & Ha).
      unfold agg_key. apply in_prod; now apply Hch.
  - apply Forall_forall. intros a Ha.
    destruct (Hch a Ha) as (He & Hg). split; [exact He|]. split; [exact Hg|].
    pose proof (Hkey a Ha) as Hk. apply visualisasi_demografi_In in Ha.
    destruct Ha as (_ & ->).
    apply (round_mean_between 2 1 12).
    + now apply raw_group_nonempty.
    + unfold raw_group.
      apply (Forall_map_filter (fun x => inject_Z 1 <= x /\ x <= inject_Z 12)).
      eapply Forall_impl; [|exact Hrows]. intros r Hr. apply Hr.
Qed.

Lemma visualisasi_demografi_generated_witness :
  (List.length (visualisasi_demografi
                  (filtered_df df_all_platforms "Mahasiswa S1" Semua)) <= 6)%nat.
Proof.
  exact (proj1 (visualisasi_demografi_generated df_all_platforms
                  "Mahasiswa S1" Semua generated_df_all_platforms)).
Defined.

(** X9: with both selectors set to literals the grouped bar chart has at
    most one bar; when the filter keeps a row there is exactly that bar,
    for the selected level and gender, and its value is a multiple of 0.01
    less than 0.01 away from the average usage of the metric card, which is
    the mean of the usage of the rows kept. *)
Theorem visualisasi_demografi_both_selected (df : DataFrame) (sp sg : string) :
  sp <> Semua -> sg <> Semua ->
  (filtered_df df sp sg = [] -> visualisasi_demografi (filtered_df df sp sg) = []) /\
  (filtered_df df sp sg <> [] ->
   exists v k,
     visualisasi_demografi (filtered_df df sp sg) =
       [ {| agg_pendidikan := sp; agg_gender := sg; agg_durasi := Num v |} ] /\
     v == inject_Z k / 100 /\
     avg_usage (main_metrik (filtered_df df sp sg)) =
       Num (direct_mean (map Durasi_Penggunaan_Harian (filtered_df df sp sg))) /\
     Qabs (v - direct_mean (map Durasi_Penggunaan_Harian (filtered_df df sp sg)))
     < 1 # 100).
Proof.
  intros Hsp Hsg. split; [intros ->; reflexivity|]. intros Hne.
  set (fd := filtered_df df sp sg) in *.
  assert (Hall : forall r, In r fd -> demografi_key r = (sp, sg)).
  { intros r Hr. apply filtered_df_exactly_matching_rows_aux in Hr.
    destruct Hr as (_ & [E1 | E1] & [E2 | E2]); try contradiction.
    unfold demografi_key. congruence. }
  assert (Hkeys : pd.group_keys pd.pair_compare (map demografi_key fd) = [(sp, sg)]).
  { apply (sorted_unique _ pair_compare_eq pair_compare_trans).
    - apply group_keys_sorted;
        [apply pair_compare_eq | apply pair_compare_antisym | apply pair_compare_trans].
    - repeat constructor.
    - intros k. rewrite (group_keys_In _ pair_compare_eq). split.
      + intros Hk. apply in_map_iff in Hk. destruct Hk as (r & <- & Hr).
        left. symmetry. now apply Hall.
      + intros [<- | []]. destruct fd as [|r fd'] eqn:Efd; [congruence|].
        rewrite <- (Hall r); [now left | now left]. }
  assert (Hne' : map Durasi_Penggunaan_Harian fd <> [])
    by (intros E; apply map_eq_nil in E; contradiction).
  destruct (group_average_two_decimals _ Hne') as (v & k & E & Hv & Hd).
  exists v, k. split; [|split; [exact Hv|split; [|exact Hd]]].
  - unfold visualisasi_demografi, pd.groupby. rewrite Hkeys. cbn [map fst snd].
    rewrite filter_true.
    + now rewrite E.
    + intros r Hr. apply (key_eqb_eq _ pair_compare_eq). now apply Hall.
  - unfold main_metrik; cbn [avg_usage]. now apply mean_direct.
Qed.

Lemma visualisasi_demografi_both_selected_witness :
  exists v k,
    visualisasi_demografi (filtered_df df_thirds "Mahasiswa S1" "Perempuan") =
      [ {| agg_pendidikan := "Mahasiswa S1"; agg_gender := "Perempuan";
           agg_durasi := Num v |} ] /\
    v == inject_Z k / 100 /\
    avg_usage (main_metrik (filtered_df df_thirds "Mahasiswa S1" "Perempuan")) =
      Num (direct_mean (map Durasi_Penggunaan_Harian
                          (filtered_df df_thirds "Mahasiswa S1" "Perempuan"))) /\
    Qabs (v - direct_mean (map Durasi_Penggunaan_Harian
                             (filtered_df df_thirds "Mahasiswa S1" "Perempuan")))
    < 1 # 100.
Proof.
  apply (proj2 (visualisasi_demografi_both_selected df_thirds
                  "Mahasiswa S1" "Perempuan" ltac:(discriminate) ltac:(discriminate))).
  discriminate.
Defined.

(** ** The platform ranking, continued *)

Lemma total_pengguna_perm (l l' : list platform_row) :
  Permutation l l' -> total_pengguna l = total_pengguna l'.
Proof.
  unfold total_pengguna. induction 1; simpl; lia.
Qed.

Lemma total_pengguna_platform_agg (df : DataFrame) :
  total_pengguna (platform_agg df) = Z.of_nat (List.length df).
Proof.
  rewrite <- (groupby_sizes String.compare string_compare_eq
                String.compare_antisym string_compare_trans
                Platform_Terbanyak_Digunakan df).
  unfold total_pengguna, platform_agg. rewrite map_map. cbn [Jumlah_Pengguna].
  induction (pd.groupby String.compare Platform_Terbanyak_Digunakan df)
    as [|g gs IH]; [reflexivity|].
  cbn [map fold_right]. rewrite IH. unfold pd.round_int, pd.count. lia.
Qed.

(** X10: every platform of the ranking has at least one user, and the user
    counts of the ranking add up to the number of rows of the table, the
    'Total Responden' of the metric cards. *)
Theorem visualisasi_platform_counts (df : DataFrame) :
  Forall (fun a => (1 <= Jumlah_Pengguna a)%Z) (visualisasi_platform df) /\
  total_pengguna (visualisasi_platform df) =
    Z.of_nat (total_responden (main_metrik df)).
Proof.
  split.
  - apply Forall_forall. intros a Ha.
    destruct (visualisasi_platform_row df a Ha) as (m & Hm & _ & _ & ->).
    unfold pd.count. destruct (platform_usage df (Platform a)); [discriminate|].
    simpl. lia.
  - unfold visualisasi_platform.
    rewrite <- (total_pengguna_perm _ _ (sort_values_desc_perm Rata_Rata_Durasi _)).
    apply total_pengguna_platform_agg.
Qed.

(** X11: on any filtered view of a generated table every platform of the
    ranking is one of the five listed and its average is a number in
    [1, 12]. *)
Theorem visualisasi_platform_generated (df : DataFrame) (sp sg : string) :
  generated df ->
  Forall (fun a =>
            In (Platform a) platform_choices /\
            num_between 1 12 (Rata_Rata_Durasi a))
         (visualisasi_platform (filtered_df df sp sg)).
Proof.
  intros Hgen. pose proof (filtered_generated_rows df sp sg Hgen) as Hrows.
  set (fd := filtered_df df sp sg) in *.
  apply Forall_forall. intros a Ha.
  unfold visualisasi_platform in Ha.
  apply (Permutation_in _ (Permutation_sym (sort_values_desc_perm _ _))) in Ha.
  apply platform_agg_In in Ha. destruct Ha as (Hk & -> & _). split.
  - apply in_map_iff in Hk. destruct Hk as (r & <- & Hr).
    rewrite Forall_forall in Hrows. apply (Hrows r Hr).
  - apply (round_mean_between 1 1 12).
    + now apply platform_usage_nonempty.
    + unfold platform_usage.
      apply (Forall_map_filter (fun x => inject_Z 1 <= x /\ x <= inject_Z 12)).
      eapply Forall_impl; [|exact Hrows]. intros r Hr. apply Hr.
Qed.

Lemma visualisasi_platform_generated_witness :
  Forall (fun a =>
            In (Platform a) platform_choices /\
            num_between 1 12 (Rata_Rata_Durasi a))
         (visualisasi_platform (filtered_df df_all_platforms Semua "Perempuan")).
Proof.
  exact (visualisasi_platform_generated df_all_platforms Semua "Perempuan"
           generated_df_all_platforms).
Defined.

(** X12: the two charts are empty exactly when the table is, and neither
    has more rows than the table. *)
Theorem aggregations_empty_iff (df : DataFrame) :
  (visualisasi_demografi df = [] <-> df = []) /\
  (visualisasi_platform df = [] <-> df = []) /\
  (List.length (visualisasi_demografi df) <= List.length df)%nat /\
  (List.length (visualisasi_platform df) <= List.length df)%nat.
Proof.
  assert (Hd : List.length (visualisasi_demografi df) =
               List.length (pd.group_keys pd.pair_compare (map demografi_key df))).
  { rewrite <- visualisasi_demografi_keys. now rewrite length_map. }
  assert (Hp : List.length (visualisasi_platform df) =
               List.length (pd.group_keys String.compare
                              (map Platform_Terbanyak_Digunakan df))).
  { rewrite <- platform_agg_platforms, length_map. unfold visualisasi_platform.
    symmetry. apply Permutation_length. apply sort_values_desc_perm. }
  split; [|split; [|split]].
  - rewrite <- length_zero_iff_nil, Hd, length_zero_iff_nil.
    rewrite (group_keys_nil_iff _ pair_compare_eq).
    split; [apply map_eq_nil | intros ->; reflexivity].
  - rewrite <- length_zero_iff_nil, Hp, length_zero_iff_nil.
    rewrite (group_keys_nil_iff _ string_compare_eq).
    split; [apply map_eq_nil | intros ->; reflexivity].
  - rewrite Hd. rewrite <- (length_map demografi_key df). apply group_keys_length.
  - rewrite Hp. rewrite <- (length_map Platform_Terbanyak_Digunakan df).
    apply group_keys_length.
Qed.

(** ** The correlation coefficients, continued *)

Lemma Qmult_le_nonneg_l (p x y : Q) : 0 <= p -> x <= y -> p * x <= p * y.
Proof. intros Hp Hxy. nra. Qed.

Lemma cauchy_schwarz_step (a b c s t : Q) :
  0 <= s -> 0 <= t -> c * c <= s * t ->
  (c + a * b) * (c + a * b) <= (s + a * a) * (t + b * b).
Proof.
  intros Hs Ht Hc.
  assert (H1 : 0 <= (s * (b * b) - a * a * t) * (s * (b * b) - a * a * t))
    by apply Qsquare_nonneg.
  assert (Ha : 0 <= a * a) by apply Qsquare_nonneg.
  assert (Hb : 0 <= b * b) by apply Qsquare_nonneg.
  assert (Hsb : 0 <= s * (b * b)) by now apply Qmult_le_0_compat.
  assert (Hat : 0 <= a * a * t) by now apply Qmult_le_0_compat.
  assert (Hab : 0 <= (a * a) * (b * b)) by now apply Qmult_le_0_compat.
  set (u := s * (b * b) + a * a * t) in *.
  assert (Hu : 0 <= u) by (unfold u; lra).
  (* (2abc)^2 <= u^2 *)
  assert (H2 : (2 * a * b * c) * (2 * a * b * c) <= u * u).
  { assert (E1 : (2 * a * b * c) * (2 * a * b * c) == 4 * ((a * a) * (b * b)) * (c * c))
      by ring.
    assert (E2 : u * u ==
                 (s * (b * b) - a * a * t) * (s * (b * b) - a * a * t) +
                 4 * ((a * a) * (b * b)) * (s * t)) by (unfold u; ring).
    rewrite E1, E2.
    assert (H3 : ((a * a) * (b * b)) * (c * c) <= ((a * a) * (b * b)) * (s * t)).
    { apply Qmult_le_nonneg_l; assumption. }
    lra. }
  assert (H4 : 2 * a * b * c <= u).
  { destruct (Qlt_le_dec u (2 * a * b * c)) as [Hlt | Hle]; trivial.
    exfalso.
    assert (H5 : u * u < (2 * a * b * c) * (2 * a * b * c)) by nra.
    lra. }
  assert (E : (s + a * a) * (t + b * b) - (c + a * b) * (c + a * b) ==
              (s * t - c * c) + (u - 2 * a * b * c)) by (unfold u; ring).
  lra.
Qed.

Lemma cauchy_schwarz (xys : list (Q * Q)) (mx my : Q) :
  pd.covxy xys mx my * pd.covxy xys mx my <=
  pd.ssqdm (map fst xys) mx * pd.ssqdm (map snd xys) my.
Proof.
  unfold pd.covxy, pd.ssqdm. induction xys as [|[x y] l IH].
  - cbn [map]. change (pd.sum []) with 0. lra.
  - cbn [map fst snd]. rewrite !sum_cons.
    set (c := pd.sum (map (fun xy => (fst xy - mx) * (snd xy - my)) l)) in *.
    set (s := pd.sum (map (fun x0 => (x0 - mx) * (x0 - mx)) (map fst l))) in *.
    set (t := pd.sum (map (fun x0 => (x0 - my) * (x0 - my)) (map snd l))) in *.
    assert (Hs : 0 <= s) by apply (ssqdm_nonneg (map fst l) mx).
    assert (Ht : 0 <= t) by apply (ssqdm_nonneg (map snd l) my).
    pose proof (cauchy_schwarz_step (x - mx) (y - my) c s t Hs Ht IH) as H.
    lra.
Qed.

Lemma nancorr_on_scale (xys : list (Q * Q)) : on_scale (pd.nancorr xys).
Proof.
  unfold pd.nancorr.
  destruct (List.length xys <? pd.minp)%nat; [exact I|]. cbv zeta.
  set (mx := pd.sum (map fst xys) / _). set (my := pd.sum (map snd xys) / _).
  set (ssx := pd.ssqdm (map fst xys) mx). set (ssy := pd.ssqdm (map snd xys) my).
  set (c := pd.covxy xys mx my).
  destruct (Qeq_bool (ssx * ssy) 0) eqn:Ez; [exact I|].
  apply Qeq_bool_neq in Ez.
  assert (Hcs : c * c <= ssx * ssy) by apply cauchy_schwarz.
  assert (Hnn : 0 <= ssx * ssy).
  { apply Qmult_le_0_compat; apply ssqdm_nonneg. }
  assert (Hpos : (0 < Q2R (ssx * ssy))%R).
  { rewrite <- Q2R_zero. apply Qlt_Rlt.
    destruct (Qlt_le_dec 0 (ssx * ssy)) as [H | H]; trivial.
    exfalso. apply Ez. lra. }
  assert (Hsq : (0 < sqrt (Q2R (ssx * ssy)))%R) by now apply sqrt_lt_R0.
  assert (Habs : (Rabs (Q2R c) <= sqrt (Q2R (ssx * ssy)))%R).
  { rewrite <- sqrt_Rsqr_abs. apply sqrt_le_1_alt.
    unfold Rsqr. rewrite <- Q2R_mult. now apply Qle_Rle. }
  unfold on_scale.
  assert (Hu : (Q2R c <= sqrt (Q2R (ssx * ssy)))%R).
  { eapply Rle_trans; [apply Rle_abs | exact Habs]. }
  assert (Hl : (- sqrt (Q2R (ssx * ssy)) <= Q2R c)%R).
  { pose proof (Rle_abs (- Q2R c)) as H. rewrite Rabs_Ropp in H. Lra.lra. }
  split.
  - apply Rmult_le_reg_r with (sqrt (Q2R (ssx * ssy))); trivial.
    unfold Rdiv. rewrite Rmult_assoc, Rinv_l by Lra.lra. Lra.lra.
  - apply Rmult_le_reg_r with (sqrt (Q2R (ssx * ssy))); trivial.
    unfold Rdiv. rewrite Rmult_assoc, Rinv_l by Lra.lra. Lra.lra.
Qed.

(** X13: every entry of the correlation matrix is NaN or a number between
    -1 and 1, the range of the colour scale of the heat map. *)
Theorem visualisasi_korelasi_on_scale (df : DataFrame) (i j : nat) :
  on_scale (iloc (visualisasi_korelasi df) i j).
Proof.
  destruct (lt_dec i 3) as [Hi | Hi]; destruct (lt_dec j 3) as [Hj | Hj];
    try (rewrite iloc_out_of_range by lia; exact I).
  rewrite iloc_visualisasi_korelasi by assumption.
  apply nancorr_on_scale.
Qed.

(** X14: the three label look-ups of the narrative always succeed (no
    KeyError): they are the entries (0,2), (0,1) and (1,2) of the matrix,
    which by symmetry are also the entries at the swapped labels, while a
    label that is not a column of the matrix has no entry. *)
Theorem narasi_korelasi_lookups (df : DataFrame) :
  let m := visualisasi_korelasi df in
  narasi_korelasi df = Some (iloc m 0 2, iloc m 0 1, iloc m 1 2) /\
  (forall r c i j,
      get_loc r rel_col_names = Some i -> get_loc c rel_col_names = Some j ->
      loc m r c = Some (iloc m i j) /\ loc m c r = loc m r c) /\
  (forall r c, ~ In r rel_col_names -> loc m r c = None /\ loc m c r = None).
Proof.
  intros m. split; [reflexivity|]. split.
  - intros r c i j Hr Hc. unfold loc. rewrite Hr, Hc.
    split; [reflexivity|]. f_equal. unfold m. apply iloc_sym.
  - intros r c Hr.
    assert (E : get_loc r rel_col_names = None).
    { unfold rel_col_names in *. cbn [get_loc].
      repeat match goal with
      | |- context [String.eqb ?a r] =>
          destruct (String.eqb a r) eqn:?;
          [ exfalso; apply Hr; simpl;
            match goal with H : String.eqb _ r = true |- _ =>
              apply String.eqb_eq in H; rewrite <- H; tauto end
          | ]
      end. reflexivity. }
    unfold loc. rewrite E. split; [reflexivity|].
    destruct (get_loc c rel_col_names); reflexivity.
Qed.

(** ** The ranking against the metric cards *)

Section GroupByWeights.
Context {K : Type} (cmp : K -> K -> comparison).
Hypothesis cmp_eq : forall a b, cmp a b = Eq <-> a = b.
Context {A : Type} (key : A -> K) (w : A -> Q).

Lemma group_weights_key (k : K) (ks : list K) (l : list A) :
  group_weights cmp key w (k :: ks) l =
  pd.sum (map w (filter (fun r => pd.key_eqb cmp (key r) k) l)) + group_weights cmp key w ks l.
Proof. reflexivity. Qed.

Lemma group_weights_nil (ks : list K) : group_weights cmp key w ks [] == pd.sum (map w []).
Proof.
  induction ks as [|k ks IH]; [reflexivity|].
  rewrite group_weights_key, IH. cbn [filter map].
  change (pd.sum []) with 0. ring.
Qed.

Lemma group_weights_cons_out (ks : list K) (x : A) (l : list A) :
  ~ In (key x) ks -> group_weights cmp key w ks (x :: l) == group_weights cmp key w ks l.
Proof.
  induction ks as [|k ks IH]; intros Hn; [reflexivity|].
  rewrite !group_weights_key. cbn [filter].
  destruct (pd.key_eqb cmp (key x) k) eqn:E.
  - apply (key_eqb_eq _ cmp_eq) in E. exfalso. apply Hn. now left.
  - rewrite IH; [reflexivity|]. intros H. apply Hn. now right.
Qed.

Lemma group_weights_cons_in (ks : list K) (x : A) (l : list A) :
  NoDup ks -> In (key x) ks ->
  group_weights cmp key w ks (x :: l) == w x + group_weights cmp key w ks l.
Proof.
  induction 1 as [|k ks Hk Hnd IH]; intros Hin; [inversion Hin|].
  rewrite !group_weights_key. cbn [filter].
  destruct (pd.key_eqb cmp (key x) k) eqn:E.
  - apply (key_eqb_eq _ cmp_eq) in E. subst k.
    rewrite group_weights_cons_out by exact Hk.
    rewrite map_cons, sum_cons. ring.
  - destruct Hin as [E' | Hin].
    + subst k. assert (Ht : pd.key_eqb cmp (key x) (key x) = true)
        by now apply (key_eqb_eq _ cmp_eq).
      congruence.
    + rewrite IH by exact Hin. ring.
Qed.

Lemma group_weights_total (ks : list K) (l : list A) :
  NoDup ks -> (forall r, In r l -> In (key r) ks) ->
  group_weights cmp key w ks l == pd.sum (map w l).
Proof.
  intros Hnd. induction l as [|x l IH]; intros Hall.
  - apply group_weights_nil.
  - rewrite group_weights_cons_in; trivial.
    + rewrite map_cons, sum_cons, IH; [reflexivity|].
      intros r Hr. apply Hall. now right.
    + apply Hall. now left.
Qed.
End GroupByWeights.

Lemma weighted_term_bound (xs : list Q) :
  Qabs (inject_Z (pd.count xs) * float_value (pd.round 1 (pd.mean xs)) - pd.sum xs)
  <= inject_Z (pd.count xs) * (1 # 20).
Proof.
  destruct xs as [|x xs].
  - change (Qabs (inject_Z 0 * 0 - 0) <= inject_Z 0 * (1 # 20)).
    apply Qle_bool_iff. reflexivity.
  - set (l := x :: xs). assert (Hne : l <> []) by discriminate.
    rewrite (mean_num _ Hne). cbn [pd.round float_value].
    set (n := inject_Z (pd.count l)). set (S := pd.sum l).
    assert (Hn : 1 <= n).
    { unfold n, l. rewrite count_cons. pose proof (count_nonneg xs). lra. }
    pose proof (np_round_error 1 (S / n)) as He.
    change ((1 # 2) / inject_Z (10 ^ Z.of_nat 1)) with (1 # 20) in He.
    apply Qabs_Qle_condition in He. destruct He as [He1 He2].
    apply Qabs_Qle_condition.
    assert (E : S == n * (S / n)) by (field; lra).
    set (r := np.round 1 (S / n)) in *. set (q := S / n) in *.
    split; nra.
Qed.

Lemma weighted_groups_bound (gs : list (list Q)) :
  Qabs (pd.sum (map (fun g => inject_Z (pd.count g) *
                               float_value (pd.round 1 (pd.mean g))) gs)
        - pd.sum (map pd.sum gs))
  <= pd.sum (map (fun g => inject_Z (pd.count g)) gs) * (1 # 20).
Proof.
  induction gs as [|g gs IH].
  - apply Qle_bool_iff. reflexivity.
  - rewrite !map_cons, !sum_cons.
    pose proof (weighted_term_bound g) as Hg.
    apply Qabs_Qle_condition in Hg. apply Qabs_Qle_condition in IH.
    apply Qabs_Qle_condition. split; lra.
Qed.

Lemma weighted_usage_perm (l l' : list platform_row) :
  Permutation l l' -> weighted_usage l == weighted_usage l'.
Proof.
  unfold weighted_usage. induction 1.
  - reflexivity.
  - rewrite !map_cons, !sum_cons, IHPermutation. reflexivity.
  - rewrite !map_cons, !sum_cons. ring.
  - now rewrite IHPermutation1.
Qed.

Lemma sum_count_groups {A} (gs : list (list A)) :
  pd.sum (map (fun g => inject_Z (pd.count g)) gs) ==
  inject_Z (Z.of_nat (fold_right Nat.add 0%nat (map (@List.length A) gs))).
Proof.
  induction gs as [|g gs IH]; [reflexivity|].
  rewrite !map_cons, sum_cons, IH. cbn [fold_right].
  rewrite Nat2Z.inj_add, inject_Z_plus. reflexivity.
Qed.

(** X15: the averages of the ranking, weighted by their user counts, give
    back the average usage of the metric card up to the rounding of the
    ranking: the two differ by less than 0.1, one unit of the decimal that
    the ranking keeps. *)
Theorem visualisasi_platform_weighted_average (df : DataFrame) :
  df <> [] ->
  exists m,
    avg_usage (main_metrik df) = Num m /\
    Qabs (weighted_usage (visualisasi_platform df) /
          inject_Z (Z.of_nat (List.length df)) - m) < 1 # 10.
Proof.
  intros Hne.
  assert (Hne' : map Durasi_Penggunaan_Harian df <> [])
    by (intros E; apply map_eq_nil in E; contradiction).
  unfold main_metrik; cbn [avg_usage]. rewrite (mean_num _ Hne').
  eexists. split; [reflexivity|].
  unfold pd.count. rewrite length_map.
  set (n := inject_Z (Z.of_nat (List.length df))).
  assert (Hn : 1 <= n).
  { unfold n. change 1 with (inject_Z 1). rewrite <- Zle_Qle.
    destruct df; [congruence | simpl; lia]. }
  set (S := pd.sum (map Durasi_Penggunaan_Harian df)).
  set (ks := pd.group_keys String.compare (map Platform_Terbanyak_Digunakan df)).
  set (gs := map (fun k => map Durasi_Penggunaan_Harian
                    (filter (fun r => pd.key_eqb String.compare
                                        (Platform_Terbanyak_Digunakan r) k) df)) ks).
  assert (HW : weighted_usage (visualisasi_platform df) ==
               pd.sum (map (fun g => inject_Z (pd.count g) *
                                      float_value (pd.round 1 (pd.mean g))) gs)).
  { unfold visualisasi_platform.
    rewrite <- (weighted_usage_perm _ _ (sort_values_desc_perm Rata_Rata_Durasi _)).
    unfold weighted_usage, platform_agg, pd.groupby, gs. fold ks.
    rewrite !map_map. cbn [Jumlah_Pengguna Rata_Rata_Durasi fst snd].
    unfold pd.round_int, pd.count. 
    induction ks as [|k ks' IHk]; [reflexivity|].
    rewrite !map_cons, !sum_cons, IHk, length_map. reflexivity. }
  assert (Hnd : NoDup ks).
  { apply (sorted_NoDup _ string_compare_eq).
    apply group_keys_sorted;
      [apply string_compare_eq | apply String.compare_antisym
       | apply string_compare_trans]. }
  assert (Hin : forall r, In r df -> In (Platform_Terbanyak_Digunakan r) ks).
  { intros r Hr. apply (group_keys_In _ string_compare_eq). now apply in_map. }
  assert (HS : pd.sum (map pd.sum gs) == S).
  { unfold gs. rewrite map_map.
    apply (group_weights_total String.compare string_compare_eq
             Platform_Terbanyak_Digunakan Durasi_Penggunaan_Harian ks df Hnd Hin). }
  assert (HN : pd.sum (map (fun g => inject_Z (pd.count g)) gs) == n).
  { rewrite sum_count_groups. unfold gs. rewrite map_map.
    assert (E : fold_right Nat.add 0%nat
                  (map (fun k => List.length (map Durasi_Penggunaan_Harian
                          (filter (fun r => pd.key_eqb String.compare
                                     (Platform_Terbanyak_Digunakan r) k) df))) ks)
                = List.length df).
    { rewrite <- (group_sizes_total String.compare string_compare_eq
                    Platform_Terbanyak_Digunakan ks df Hnd Hin).
      unfold group_sizes. f_equal. apply map_ext. intros k. apply length_map. }
    now rewrite E. }
  pose proof (weighted_groups_bound gs) as Hb.
  rewrite <- HW, HS, HN in Hb.
  apply Qabs_Qle_condition in Hb. destruct Hb as [Hb1 Hb2].
  apply Qle_lt_trans with (1 # 20); [|reflexivity].
  apply Qabs_Qle_condition.
  set (W := weighted_usage (visualisasi_platform df)) in *.
  assert (EW : W == n * (W / n)) by (field; lra).
  assert (ES : S == n * (S / n)) by (field; lra).
  set (a := W / n) in *. set (b := S / n) in *.
  split; nra.
Qed.

Lemma visualisasi_platform_weighted_average_witness :
  exists m,
    avg_usage (main_metrik df_tie) = Num m /\
    Qabs (weighted_usage (visualisasi_platform df_tie) /
          inject_Z (Z.of_nat (List.length df_tie)) - m) < 1 # 10.
Proof.
  apply (visualisasi_platform_weighted_average df_tie). discriminate.
Defined.

(** X16: on a non-empty table the ranking has a first row, and no other
    row has a larger displayed average than the first. *)
Theorem visualisasi_platform_top (df : DataFrame) :
  df <> [] ->
  exists top rest,
    visualisasi_platform df = top :: rest /\
    Forall (fun a => float_value (Rata_Rata_Durasi a) <=
                     float_value (Rata_Rata_Durasi top)) rest.
Proof.
  intros Hne.
  pose proof (visualisasi_platform_sorted df) as Hs.
  assert (Hnum : forall a, In a (visualisasi_platform df) ->
            exists q, Rata_Rata_Durasi a = Num q).
  { intros a Ha. destruct (visualisasi_platform_row df a Ha) as (m & _ & -> & _).
    eauto. }
  destruct (visualisasi_platform df) as [|top rest] eqn:E.
  - exfalso. assert (Hlen : List.length (visualisasi_platform df) = 0%nat)
      by now rewrite E.
    unfold visualisasi_platform in Hlen.
    rewrite <- (Permutation_length (sort_values_desc_perm Rata_Rata_Durasi _)) in Hlen.
    rewrite <- (length_map Platform), platform_agg_platforms in Hlen.
    apply length_zero_iff_nil in Hlen.
    apply (proj1 (group_keys_nil_iff _ string_compare_eq _)) in Hlen.
    apply map_eq_nil in Hlen. contradiction.
  - exists top, rest. split; [reflexivity|].
    inversion Hs as [|? ? _ Hall]; subst.
    apply Forall_forall. intros a Ha. rewrite Forall_forall in Hall.
    specialize (Hall a Ha). unfold pd.key_ge in Hall.
    destruct (Hnum top (or_introl eq_refl)) as (qt & Et).
    destruct (Hnum a (or_intror Ha)) as (qa & Ea).
    rewrite Et, Ea in *. exact Hall.
Qed.

Lemma visualisasi_platform_top_witness :
  exists top rest,
    visualisasi_platform df_varied = top :: rest /\
    Forall (fun a => float_value (Rata_Rata_Durasi a) <=
                     float_value (Rata_Rata_Durasi top)) rest.
Proof.
  apply (visualisasi_platform_top df_varied). discriminate.
Defined.

(** X17: rounding to one decimal moves the stored daily usage less than
    0.1 away from the uniform draw and the stored sleep duration less than
    0.1 away from the clipped value it is rounded from: never by a whole
    unit of the decimal kept. *)
Theorem make_row_rounding_error (d : draw) :
  Qabs (Durasi_Penggunaan_Harian (make_row d) - uniform_usage d) < 1 # 10 /\
  Qabs (Durasi_Tidur (make_row d) -
        np.clip 3 10 (base_sleep d -
                      Durasi_Penggunaan_Harian (make_row d) * (2 # 10))) < 1 # 10.
Proof.
  unfold make_row; cbn [Durasi_Penggunaan_Harian Durasi_Tidur].
  split; (eapply Qlt_le_trans; [apply (np_round_within_unit 1)|]);
    apply Qle_bool_iff; reflexivity.
Qed.
